(** * Trading journal: the metrics engine of [Trading_journal.py]

    A shallow embedding of the Streamlit script [src/Trading_journal.py]:
    the trade form of the sidebar (amount calculation, validation, append to
    the session store), the data frame built from the store (date sort,
    [Cumulative_PnL], [Daily_PnL]), the time filters, the metrics block, the
    cumulative chart and the CSV export.

    Conventions.
    - Amounts are the rationals [Q] that finite floats denote, with exact
      arithmetic; results are compared with [==] ([Qeq]).  Rounding,
      overflow to infinity and NaN are outside this reading: the module
      [Doubles] repeats the amount rule and the metrics block in binary64
      and shows where the two readings part.
    - A widget's return value is an input of the model: [None] is an empty
      number input.
    - [st.session_state.trades] is threaded explicitly. *)

From Stdlib Require Import ZArith QArith Qminmax Qabs Lqa Lia.
From Stdlib Require Import List Bool Ascii String.
From Stdlib Require Import Permutation Sorted.
From Stdlib Require Floats Uint63.
Import ListNotations.

Local Open Scope Z_scope.
Local Open Scope Q_scope.

(* ================================================================== *)
(** * Calendar dates *)
(* ================================================================== *)

(** [datetime.date]: the values of the [Date] column.  After
    [pd.to_datetime] every timestamp is at midnight, so a timestamp of the
    frame is still a calendar date. *)
Record date : Type := mkDate { year : Z; month : Z; day : Z }.

Definition date_compare (a b : date) : comparison :=
  match Z.compare (year a) (year b) with
  | Eq => match Z.compare (month a) (month b) with
          | Eq => Z.compare (day a) (day b)
          | c => c
          end
  | c => c
  end.

(** [a <= b] on timestamps. *)
Definition date_leb (a b : date) : bool :=
  match date_compare a b with Gt => false | _ => true end.

Definition date_eqb (a b : date) : bool :=
  match date_compare a b with Eq => true | _ => false end.

Definition date_le (a b : date) : Prop := date_leb a b = true.

Definition is_leap (y : Z) : bool :=
  ((y mod 4 =? 0) && negb (y mod 100 =? 0) || (y mod 400 =? 0))%Z%bool.

Definition days_before_year (y : Z) : Z :=
  (let p := y - 1 in p * 365 + p / 4 - p / 100 + p / 400)%Z.

Definition days_before_month (y m : Z) : Z :=
  (let cum := nth (Z.to_nat (m - 1))
                [0; 31; 59; 90; 120; 151; 181; 212; 243; 273; 304; 334] 0 in
   if (2 <? m) && is_leap y then cum + 1 else cum)%Z.

(** [date.toordinal()]: 1 for 0001-01-01, which is a Monday. *)
Definition toordinal (d : date) : Z :=
  (days_before_year (year d) + days_before_month (year d) (month d) + day d)%Z.

(** The three period kinds of [Series.dt.to_period]. ["W"] is the week from
    Monday to Sunday, identified here by its number since 0001-01-01;
    ["M"] is (year, month); ["Q"] is (year, quarter). *)
Definition week_period (d : date) : Z := ((toordinal d - 1) / 7)%Z.
Definition month_period (d : date) : Z * Z := (year d, month d).
Definition quarter_period (d : date) : Z * Z := (year d, (month d - 1) / 3 + 1)%Z.

Definition period_eqb (p q : Z * Z) : bool :=
  ((fst p =? fst q) && (snd p =? snd q))%Z%bool.

(** Decimal digits and the [YYYY-MM-DD] rendering that [to_csv] gives a
    [datetime64] column whose values are all at midnight. *)
Definition digit (n : Z) : ascii := ascii_of_nat (48 + Z.to_nat (n mod 10)).

Definition is_digit (c : ascii) : bool :=
  let n := nat_of_ascii c in ((48 <=? n) && (n <=? 57))%nat.

Definition pad2 (n : Z) : string :=
  String (digit (n / 10)) (String (digit n) EmptyString).

Definition pad4 (n : Z) : string :=
  String (digit (n / 1000)) (String (digit (n / 100)) (pad2 n)).

Definition isoformat (d : date) : string :=
  (pad4 (year d) ++ "-" ++ pad2 (month d) ++ "-" ++ pad2 (day d))%string.

(** The shape of a calendar date in ISO-8601: four digits, a dash, two
    digits, a dash, two digits. *)
Definition is_iso8601_date (s : string) : bool :=
  match list_ascii_of_string s with
  | [y1; y2; y3; y4; s1; m1; m2; s2; d1; d2] =>
      forallb is_digit [y1; y2; y3; y4; m1; m2; d1; d2]
      && Ascii.eqb s1 "-" && Ascii.eqb s2 "-"
  | _ => false
  end.

(** The number a digit stands for, and the date an ISO-8601 string
    denotes. *)
Definition digit_value (c : ascii) : Z := Z.of_nat (nat_of_ascii c - 48).

Definition date_of_iso (s : string) : option date :=
  if is_iso8601_date s then
    match list_ascii_of_string s with
    | [y1; y2; y3; y4; _; m1; m2; _; d1; d2] =>
        Some {| year := 1000 * digit_value y1 + 100 * digit_value y2
                        + 10 * digit_value y3 + digit_value y4;
                month := 10 * digit_value m1 + digit_value m2;
                day := 10 * digit_value d1 + digit_value d2 |}%Z
    | _ => None
    end
  else None.

(** The dates of [datetime.date]: years 1 to 9999. *)
Definition valid_date (d : date) : Prop :=
  (1 <= year d <= 9999 /\ 1 <= month d <= 12 /\ 1 <= day d <= 31)%Z.

(* ================================================================== *)
(** * The trade form: type codes and the amount calculation *)
(* ================================================================== *)

(** The five options of the [Trade Type] select box. *)
Inductive trade_type : Type := W2R | W1R | L1R | L2R | Custom.

(** The string the select box returns. *)
Definition code (t : trade_type) : string :=
  match t with
  | W2R => "W2R" | W1R => "W1R" | L1R => "L1R" | L2R => "L2R"
  | Custom => "Custom $"
  end%string.

(** A Python call either returns or raises; the only exception this script
    can meet is the [ValueError] of [float(...)]. *)
Inductive py (A : Type) : Type :=
| Ret (a : A)
| ValueError.
Arguments Ret {A} a.
Arguments ValueError {A}.

Definition bind {A B} (c : py A) (k : A -> py B) : py B :=
  match c with Ret a => k a | ValueError => ValueError end.

Notation "x <- c ;; k" := (bind c (fun x => k))
  (at level 61, c at next level, right associativity).

(** [s[1:-1]]: drop the first and the last character. *)
Fixpoint drop_last (s : string) : string :=
  match s with
  | EmptyString => EmptyString
  | String c EmptyString => EmptyString
  | String c r => String c (drop_last r)
  end.

Definition slice_1_m1 (s : string) : string :=
  match s with
  | EmptyString => EmptyString
  | String _ r => drop_last r
  end.

(** [s.startswith(p)] *)
Definition startswith (s p : string) : bool := String.prefix p s.

(** [float(s)] on the strings it is applied to here: a non-empty run of
    decimal digits; anything else raises. *)
Fixpoint digits_value (acc : Z) (s : string) : py Z :=
  match s with
  | EmptyString => Ret acc
  | String c r =>
      if is_digit c
      then digits_value (10 * acc + Z.of_nat (nat_of_ascii c - 48))%Z r
      else ValueError
  end.

Definition float_of_string (s : string) : py Q :=
  match s with
  | EmptyString => ValueError
  | _ => n <- digits_value 0 s ;; Ret (inject_Z n)
  end.

(** Lines 30-39: the amount shown in the form.  [r_value] is what the
    [R Value ($)] input returns, [pnl] what the [P&L ($)] input returns;
    [None] is Python's [None]. *)
Definition compute_amount (t : trade_type) (r_value pnl : option Q)
  : py (option Q) :=
  if String.eqb (code t) "Custom $" then Ret pnl
  else
    match r_value with
    | None => Ret None
    | Some r =>
        multiplier <- float_of_string (slice_1_m1 (code t)) ;;
        Ret (Some (if startswith (code t) "W"
                   then multiplier * r
                   else - multiplier * r))
    end.

(** The rule of the specification, for comparison: the numeric portion of
    the code and the sign of its prefix. *)
Definition spec_multiplier (t : trade_type) : Q :=
  match t with W2R | L2R => 2 | W1R | L1R => 1 | Custom => 0 end.

Definition spec_sign (t : trade_type) : Q :=
  match t with W2R | W1R => 1 | L1R | L2R => -1 | Custom => 0 end.


(* ================================================================== *)
(** * The session store and the form submission *)
(* ================================================================== *)

(** One line of [st.session_state.trades]: the six columns of the frame
    created at lines 11-13. *)
Record trade : Type := mkTrade {
  Date : date;
  Type_ : string;
  R_Value : option Q;
  Amount : Q;
  Image : option string;
  Notes : string
}.

(** What the widgets of [trade_form] hold when [Save Trade] is pressed. *)
Record form : Type := mkForm {
  trade_type_in : trade_type;
  r_value : option Q;        (* number_input(min_value=0.01, value=None) *)
  pnl : option Q;            (* number_input("P&L ($)", step=0.01),
                                shown for Custom $; the widget always
                                holds a number, see [pnl_input] *)
  trade_date : date;
  uploaded_image : option string;
  notes : string
}.

(** The [R Value ($)] input is declared with [min_value=0.01]: it holds
    nothing or a number not below that bound. *)
Definition r_value_in_range (f : form) : Prop :=
  match r_value f with
  | None => True
  | Some r => 1 # 100 <= r
  end.

(** The message the form shows after a submission. *)
Inductive feedback : Type :=
| RequiredFieldsError     (* st.error("Please enter all required fields") *)
| TradeSaved.             (* st.success("Trade saved!") *)

Definition is_none {A} (o : option A) : bool :=
  match o with None => true | Some _ => false end.

Section Store.

(** [base64.b64encode(bytes).decode()], left abstract: the engine never
    looks inside an image. *)
Variable b64encode : string -> string.

(** Lines 48-72, run when the form is submitted: the new store and the
    message shown. *)
Definition add_trade (trades : list trade) (f : form)
  : py (list trade * feedback) :=
  amount <- compute_amount (trade_type_in f) (r_value f) (pnl f) ;;
  if (negb (String.eqb (code (trade_type_in f)) "Custom $")
      && is_none (r_value f))
     || is_none amount
  then Ret (trades, RequiredFieldsError)
  else
    match amount with
    | None => Ret (trades, RequiredFieldsError)
    | Some a =>
        let img_str := option_map b64encode (uploaded_image f) in
        let new_trade :=
          {| Date := trade_date f; Type_ := code (trade_type_in f);
             R_Value := r_value f; Amount := a;
             Image := img_str; Notes := notes f |} in
        Ret (trades ++ [new_trade], TradeSaved)
    end.

End Store.

(** [Clear All Trades]. *)
Definition clear_trades : list trade := [].

(** [st.number_input("P&L ($)", step=0.01)] is given no [value]: it
    starts at 0.0 and returns a number whether or not one was typed. *)
Definition pnl_input (typed : option Q) : Q :=
  match typed with
  | Some a => a
  | None => 0
  end.

(** The form as the script reads it from its widgets: [r] is what the
    [R Value ($)] input returns, [typed_pnl] what the user typed into the
    [P&L ($)] input, if anything. *)
Definition form_of_widgets (t : trade_type) (r typed_pnl : option Q)
           (d : date) (img : option string) (n : string) : form :=
  {| trade_type_in := t; r_value := r;
     pnl := Some (pnl_input typed_pnl);
     trade_date := d; uploaded_image := img; notes := n |}.

(** The condition of the specification under which a submission is
    rejected: the required field is missing or invalid. *)
Definition spec_rejects (t : trade_type) (r typed_pnl : option Q) : Prop :=
  match t with
  | Custom => typed_pnl = None
  | _ => match r with
         | None => True
         | Some x => x <= 0
         end
  end.

(* ================================================================== *)
(** * The data frame of the dashboard *)
(* ================================================================== *)

(** [df.sort_values("Date")].  The result is the frame in ascending date
    order; here it is an insertion sort that keeps trades of one date in
    the order in which they were entered, the order the specification
    asks for (pandas' default sort kind promises nothing about ties). *)
Fixpoint insert_by_date (t : trade) (l : list trade) : list trade :=
  match l with
  | [] => [t]
  | h :: r =>
      if date_leb (Date t) (Date h) then t :: h :: r
      else h :: insert_by_date t r
  end.

Definition sort_values (l : list trade) : list trade :=
  fold_right insert_by_date [] l.

(** A scan: the list of the successive values of an accumulator. *)
Fixpoint running (f : Q -> Q -> Q) (acc : Q) (l : list Q) : list Q :=
  match l with
  | [] => []
  | x :: r => let a := f acc x in a :: running f a r
  end.

(** [Series.cumsum()] *)
Definition cumsum (l : list Q) : list Q :=
  match l with
  | [] => []
  | x :: r => x :: running Qplus x r
  end.

(** [Series.expanding(min_periods=1).max()] *)
Definition expanding_max (l : list Q) : list Q :=
  match l with
  | [] => []
  | x :: r => x :: running Qmax x r
  end.

(** [Series.sum()]; 0 on an empty series. *)
Fixpoint series_sum (l : list Q) : Q :=
  match l with
  | [] => 0
  | x :: r => x + series_sum r
  end.

(** [Series.min()]; [None] stands for the NaN of an empty series. *)
Definition series_min (l : list Q) : option Q :=
  match l with
  | [] => None
  | x :: r => Some (fold_left Qmin r x)
  end.

(** A line of [df] after lines 84-85: the six stored columns and the two
    derived ones. *)
Record row : Type := mkRow {
  base : trade;
  Cumulative_PnL : Q;
  Daily_PnL : Q
}.

Definition amounts (df : list row) : list Q := map (fun r => Amount (base r)) df.

(** [df.groupby("Date")["Amount"].transform("sum")] for one line: the sum
    of the amounts of the lines of the same date. *)
Definition daily_pnl (sorted : list trade) (t : trade) : Q :=
  series_sum (map Amount (filter (fun u => date_eqb (Date u) (Date t)) sorted)).

(** Lines 79-85. *)
Definition build_df (trades : list trade) : list row :=
  let df := sort_values trades in
  map (fun tc => {| base := fst tc; Cumulative_PnL := snd tc;
                    Daily_PnL := daily_pnl df (fst tc) |})
      (combine df (cumsum (map Amount df))).

(* ================================================================== *)
(** * Time filters *)
(* ================================================================== *)

(** What the filter widgets hold: the [Show All Data] box ticked, or a kind
    of period with the selected period, or the list that the range picker
    returns (no, one or two dates). *)
Inductive filter_spec : Type :=
| ShowAll
| Weekly (selected_week : Z)
| Monthly (selected_month : Z * Z)
| Quarterly (selected_quarter : Z * Z)
| CustomRange (date_range : list date).

(** [df[mask]]: the lines whose entry in the boolean series is [True]. *)
Fixpoint loc_mask {A} (df : list A) (mask : list bool) : list A :=
  match df, mask with
  | r :: df', b :: mask' =>
      if b then r :: loc_mask df' mask' else loc_mask df' mask'
  | _, _ => []
  end.

Definition row_date (r : row) : date := Date (base r).

(** Lines 94-124. *)
Definition filter_trades (df : list row) (spec : filter_spec) : list row :=
  match spec with
  | ShowAll => df
  | Weekly w =>
      loc_mask df (map (fun r => Z.eqb (week_period (row_date r)) w) df)
  | Monthly m =>
      loc_mask df (map (fun r => period_eqb (month_period (row_date r)) m) df)
  | Quarterly q =>
      loc_mask df (map (fun r => period_eqb (quarter_period (row_date r)) q) df)
  | CustomRange date_range =>
      match date_range with
      | [d0; d1] =>
          loc_mask df
            (map (fun bb => andb (fst bb) (snd bb))
               (combine (map (fun r => date_leb d0 (row_date r)) df)
                        (map (fun r => date_leb (row_date r) d1) df)))
      | _ => df
      end
  end.

(* ================================================================== *)
(** * The metrics block *)
(* ================================================================== *)

(** The two branches of line 139: [Fin q] is the value of the division
    [total_wins / total_losses], [Inf] the constant [np.inf] of the [else].
    (In binary64 the division can itself overflow to infinity, see
    [Doubles].) *)
Inductive xfloat : Type :=
| Fin (q : Q)
| Inf.

Record MetricsReport : Type := mkReport {
  total_trades : nat;
  winning_trades : nat;
  losing_trades : nat;
  win_rate : Q;
  profit_factor : xfloat;
  avg_win : Q;
  avg_loss : Q;
  expectancy : Q;
  max_drawdown : Q;
  net_pnl : Q
}.

Definition Qltb (x y : Q) : bool := negb (Qle_bool y x).

Definition of_nat (n : nat) : Q := inject_Z (Z.of_nat n).

(** [filtered_df[filtered_df["Amount"] > 0]] and its mirror. *)
Definition winners (df : list row) : list row :=
  loc_mask df (map (fun a => Qltb 0 a) (amounts df)).

Definition losers (df : list row) : list row :=
  loc_mask df (map (fun a => Qltb a 0) (amounts df)).

Definition total_wins (df : list row) : Q := series_sum (amounts (winners df)).

Definition total_losses (df : list row) : Q :=
  Qabs (series_sum (amounts (losers df))).

(** Lines 145-147. *)
Definition drawdown (df : list row) : list Q :=
  let cumulative := cumsum (amounts df) in
  let peak := expanding_max cumulative in
  map (fun cp => fst cp - snd cp) (combine cumulative peak).

(** Lines 129-161: the report shown for a filtered frame, or nothing when
    the frame is empty (the branch of line 232 is taken instead). *)
Definition compute_metrics (filtered_df : list row) : option MetricsReport :=
  match filtered_df with
  | [] => None
  | _ =>
      let total_trades := List.length filtered_df in
      let winning_trades := List.length (winners filtered_df) in
      let losing_trades := List.length (losers filtered_df) in
      let win_rate :=
        if (0 <? total_trades)%nat
        then of_nat winning_trades / of_nat total_trades else 0 in
      let total_wins := total_wins filtered_df in
      let total_losses := total_losses filtered_df in
      let profit_factor :=
        if Qltb 0 total_losses then Fin (total_wins / total_losses) else Inf in
      let avg_win :=
        if (0 <? winning_trades)%nat
        then total_wins / of_nat winning_trades else 0 in
      let avg_loss :=
        if (0 <? losing_trades)%nat
        then total_losses / of_nat losing_trades else 0 in
      let expectancy := (avg_win * win_rate) + (- avg_loss * (1 - win_rate)) in
      match series_min (drawdown filtered_df) with
      | None => None
      | Some max_drawdown =>
          Some {| total_trades := total_trades;
                  winning_trades := winning_trades;
                  losing_trades := losing_trades;
                  win_rate := win_rate;
                  profit_factor := profit_factor;
                  avg_win := avg_win;
                  avg_loss := avg_loss;
                  expectancy := expectancy;
                  max_drawdown := max_drawdown;
                  net_pnl := series_sum (amounts filtered_df) |}
      end
  end.

(** The report of the specification for an empty set of trades. *)
Definition all_zero_report (r : MetricsReport) : Prop :=
  total_trades r = 0%nat /\ winning_trades r = 0%nat /\ losing_trades r = 0%nat
  /\ win_rate r == 0 /\ avg_win r == 0 /\ avg_loss r == 0
  /\ expectancy r == 0 /\ max_drawdown r == 0 /\ net_pnl r == 0
  /\ (exists q, profit_factor r = Fin q /\ q == 0).

(** The profit factor as the specification words it. *)
Definition spec_profit_factor (df : list row) (pf : xfloat) : Prop :=
  (pf = Inf <-> (total_losses df == 0 /\ 0 < total_wins df))
  /\ (total_losses df == 0 /\ total_wins df == 0 ->
      exists q, pf = Fin q /\ q == 0)
  /\ (~ total_losses df == 0 ->
      exists q, pf = Fin q /\ q == total_wins df / total_losses df).

(** A series that never goes down. *)
Fixpoint non_decreasing (l : list Q) : Prop :=
  match l with
  | x :: ((y :: _) as r) => x <= y /\ non_decreasing r
  | _ => True
  end.

(* ================================================================== *)
(** * The cumulative chart *)
(* ================================================================== *)

(** Lines 184-192: the [x] and [y] of the trace. *)
Definition cumulative_chart (filtered_df : list row) : list date * list Q :=
  (map row_date filtered_df, map Cumulative_PnL filtered_df).

(** Pointwise [==] of two series. *)
Definition series_eq (a b : list Q) : Prop := Forall2 Qeq a b.

(* ================================================================== *)
(** * CSV export *)
(* ================================================================== *)

Definition dquote : ascii := "034"%char.
Definition newline : ascii := "010"%char.
Definition comma : ascii := ","%char.

(** The writer quotes a field that holds the delimiter, the quote
    character or a character of the line terminator (a line feed), and
    doubles the quotes inside it. *)
Fixpoint needs_quoting (s : string) : bool :=
  match s with
  | EmptyString => false
  | String c r =>
      Ascii.eqb c comma || Ascii.eqb c dquote || Ascii.eqb c newline
      || needs_quoting r
  end.

Fixpoint double_quotes (s : string) : string :=
  match s with
  | EmptyString => EmptyString
  | String c r =>
      if Ascii.eqb c dquote then String dquote (String dquote (double_quotes r))
      else String c (double_quotes r)
  end.

Definition csv_field (s : string) : string :=
  if needs_quoting s
  then String dquote (double_quotes s ++ String dquote EmptyString)
  else s.

Fixpoint join_fields (fields : list string) : string :=
  match fields with
  | [] => EmptyString
  | [f] => f
  | f :: r => (f ++ String comma (join_fields r))%string
  end.

Definition csv_line (cells : list string) : string :=
  (join_fields (map csv_field cells) ++ String newline EmptyString)%string.

Fixpoint concat_lines (lines : list string) : string :=
  match lines with
  | [] => EmptyString
  | l :: r => (l ++ concat_lines r)%string
  end.

(** [DataFrame.to_csv(index=False)] of a frame given by its column names
    and the cells of its lines: a header line, then a line per record,
    each ended by a line feed. *)
Definition to_csv (columns : list string) (records : list (list string))
  : string :=
  concat_lines (map csv_line (columns :: records)).

(** Reading a CSV stream back, field by field: a quote at the start of a
    field opens a quoted field, in which a doubled quote stands for one
    quote and commas and line breaks are plain characters. *)
Inductive reader_mode : Type := Plain | Quoted | AfterQuote.

Record reader : Type := mkReader {
  mode : reader_mode;
  field : string;                   (* the field being read *)
  fields : list string;             (* the fields of the record, last first *)
  records : list (list string)      (* the records read, last first *)
}.

Definition push_char (m : reader_mode) (c : ascii) (rd : reader) : reader :=
  mkReader m (field rd ++ String c EmptyString) (fields rd) (records rd).

Definition end_field (rd : reader) : reader :=
  mkReader Plain EmptyString (field rd :: fields rd) (records rd).

Definition end_record (rd : reader) : reader :=
  mkReader Plain EmptyString [] (rev (field rd :: fields rd) :: records rd).

Definition is_empty (s : string) : bool :=
  match s with EmptyString => true | _ => false end.

Definition read_char (rd : reader) (c : ascii) : reader :=
  match mode rd with
  | Plain =>
      if Ascii.eqb c dquote then
        if is_empty (field rd)
        then mkReader Quoted (field rd) (fields rd) (records rd)
        else push_char Plain c rd
      else if Ascii.eqb c comma then end_field rd
      else if Ascii.eqb c newline then end_record rd
      else push_char Plain c rd
  | Quoted =>
      if Ascii.eqb c dquote
      then mkReader AfterQuote (field rd) (fields rd) (records rd)
      else push_char Quoted c rd
  | AfterQuote =>
      if Ascii.eqb c dquote then push_char Quoted c rd
      else if Ascii.eqb c comma then end_field rd
      else if Ascii.eqb c newline then end_record rd
      else push_char Plain c rd
  end.

Fixpoint read_chars (rd : reader) (s : string) : reader :=
  match s with
  | EmptyString => rd
  | String c r => read_chars (read_char rd c) r
  end.

Definition read_end (rd : reader) : list (list string) :=
  match mode rd, field rd, fields rd with
  | Plain, EmptyString, [] => rev (records rd)
  | _, _, _ => rev (records (end_record rd))
  end.

Definition read_csv (stream : string) : list (list string) :=
  read_end (read_chars (mkReader Plain EmptyString [] []) stream).

(** The columns of [df] at line 219, in order. *)
Definition df_columns : list string :=
  ["Date"; "Type"; "R_Value"; "Amount"; "Image"; "Notes";
   "Cumulative_PnL"; "Daily_PnL"]%string.

(** The columns the specification gives the export. *)
Definition spec_columns : list string :=
  ["Date"; "Type"; "R_Value"; "Amount"; "Image"; "Notes"]%string.

Definition or_empty (o : option string) : string :=
  match o with Some s => s | None => EmptyString end.

Section CsvExport.

(** How [to_csv] prints a float; left abstract. *)
Variable fmt_float : Q -> string.

Definition cells (r : row) : list string :=
  [ isoformat (row_date r);
    Type_ (base r);
    or_empty (option_map fmt_float (R_Value (base r)));
    fmt_float (Amount (base r));
    or_empty (Image (base r));
    Notes (base r);
    fmt_float (Cumulative_PnL r);
    fmt_float (Daily_PnL r) ].

(** Line 219: [df.to_csv(index=False).encode()].  Strings are byte
    strings here, so [encode] changes nothing. *)
Definition export_csv (df : list row) : string :=
  to_csv df_columns (map cells df).

(** The export as the specification describes it: a header of the six
    stored columns and one record per trade, each starting with an
    ISO-8601 date. *)
Definition spec_export (stream : string) (trades : list trade) : Prop :=
  exists records,
    read_csv stream = spec_columns :: records
    /\ List.length records = List.length trades
    /\ Forall (fun rec => List.length rec = List.length spec_columns
                          /\ is_iso8601_date (hd EmptyString rec) = true)
              records.

(* ================================================================ *)
(** * The dashboard *)
(* ================================================================ *)

(** What one run of the script shows below the title. *)
Inductive view : Type :=
| NoTradesYet        (* line 76 *)
| NoTradesFound      (* line 233 *)
| Shown (report : MetricsReport) (chart : list date * list Q) (csv : string).

(** Lines 75-233. *)
Definition dashboard (trades : list trade) (spec : filter_spec) : view :=
  match trades with
  | [] => NoTradesYet
  | _ =>
      let df := build_df trades in
      let filtered_df := filter_trades df spec in
      match compute_metrics filtered_df with
      | Some report =>
          Shown report (cumulative_chart filtered_df) (export_csv df)
      | None => NoTradesFound
      end
  end.

End CsvExport.

(* ================================================================== *)
(** * Sample data *)
(* ================================================================== *)

Definition empty_form : form :=
  {| trade_type_in := W2R; r_value := None; pnl := None;
     trade_date := mkDate 2024 1 15; uploaded_image := None;
     notes := EmptyString |}.


(** The scenario of the specification: +200, -100, +300 on three days. *)
Definition custom_trade (d : date) (a : Q) : trade :=
  {| Date := d; Type_ := code Custom; R_Value := None; Amount := a;
     Image := None; Notes := EmptyString |}.

Definition sample_trades : list trade :=
  [ custom_trade (mkDate 2024 1 15) 200;
    custom_trade (mkDate 2024 1 16) (-100);
    custom_trade (mkDate 2024 1 17) 300 ].

Definition sample_df : list row := build_df sample_trades.

(** A store holding one break-even trade. *)
Definition flat_trades : list trade := [ custom_trade (mkDate 2024 1 15) 0 ].

Definition flat_df : list row := build_df flat_trades.

(** Two winning trades, ten days apart. *)
Definition two_trades : list trade :=
  [ custom_trade (mkDate 2024 1 1) 100; custom_trade (mkDate 2024 1 10) 50 ].

Definition rising_df : list row := build_df two_trades.

(* ================================================================== *)
(** * Auxiliary notions used in the proofs *)
(* ================================================================== *)

(** The size of a loss: [-a] for a negative amount, 0 otherwise. *)
Definition loss_part (a : Q) : Q := if Qltb a 0 then - a else 0.

Definition gain_part (a : Q) : Q := if Qltb 0 a then a else 0.

Fixpoint loss_sum (l : list Q) : Q :=
  match l with
  | [] => 0
  | a :: r => loss_part a + loss_sum r
  end.

Fixpoint gain_sum (l : list Q) : Q :=
  match l with
  | [] => 0
  | a :: r => gain_part a + gain_sum r
  end.

(** The drawdowns after a point where the running total is [c] and the
    running peak is [p]. *)
Definition drawdown_from (c p : Q) (l : list Q) : list Q :=
  map (fun cp => fst cp - snd cp)
      (combine (running Qplus c l) (running Qmax p (running Qplus c l))).

(** Each field of a report, as the metrics block computes it. *)
Definition report_fields (df : list row) (r : MetricsReport) : Prop :=
  total_trades r = List.length df
  /\ winning_trades r = List.length (winners df)
  /\ losing_trades r = List.length (losers df)
  /\ win_rate r = of_nat (winning_trades r) / of_nat (total_trades r)
  /\ profit_factor r =
       (if Qltb 0 (total_losses df)
        then Fin (total_wins df / total_losses df) else Inf)
  /\ avg_win r =
       (if (0 <? winning_trades r)%nat
        then total_wins df / of_nat (winning_trades r) else 0)
  /\ avg_loss r =
       (if (0 <? losing_trades r)%nat
        then total_losses df / of_nat (losing_trades r) else 0)
  /\ expectancy r =
       (avg_win r * win_rate r) + (- avg_loss r * (1 - win_rate r))
  /\ series_min (drawdown df) = Some (max_drawdown r)
  /\ net_pnl r = series_sum (amounts df).

(** The order of the sorted frame. *)
Definition by_date (a b : trade) : Prop := date_le (Date a) (Date b).


(* ================================================================== *)
(** * The period pickers and the default range *)
(* ================================================================== *)

(** [Series.unique()]: the distinct values, in order of first
    appearance. *)
Fixpoint unique {A} (eqb : A -> A -> bool) (l : list A) : list A :=
  match l with
  | [] => []
  | x :: r => x :: filter (fun y => negb (eqb x y)) (unique eqb r)
  end.

(** [sorted(...)] for an order given by [leb]; [reverse=True] is the same
    sort for the converse order. *)
Fixpoint insert_by {A} (leb : A -> A -> bool) (x : A) (l : list A) : list A :=
  match l with
  | [] => [x]
  | h :: r => if leb x h then x :: h :: r else h :: insert_by leb x r
  end.

Definition sorted_by {A} (leb : A -> A -> bool) (l : list A) : list A :=
  fold_right (insert_by leb) [] l.

Definition sorted_reverse {A} (leb : A -> A -> bool) (l : list A) : list A :=
  sorted_by (fun a b => leb b a) l.

(** The order of (year, month) and (year, quarter) periods. *)
Definition period_leb (p q : Z * Z) : bool :=
  ((fst p <? fst q) || ((fst p =? fst q) && (snd p <=? snd q)))%Z%bool.

(** Lines 100-101, 105-106 and 110-111: the options of the three period
    select boxes. *)
Definition week_options (df : list row) : list Z :=
  sorted_reverse Z.leb (unique Z.eqb (map (fun r => week_period (row_date r)) df)).

Definition month_options (df : list row) : list (Z * Z) :=
  sorted_reverse period_leb
    (unique period_eqb (map (fun r => month_period (row_date r)) df)).

Definition quarter_options (df : list row) : list (Z * Z) :=
  sorted_reverse period_leb
    (unique period_eqb (map (fun r => quarter_period (row_date r)) df)).

(** [df["Date"].min()] and [df["Date"].max()]; [None] stands for the NaT
    of an empty column. *)
Definition date_min (l : list date) : option date :=
  match l with
  | [] => None
  | d :: r => Some (fold_left (fun m x => if date_leb x m then x else m) r d)
  end.

Definition date_max (l : list date) : option date :=
  match l with
  | [] => None
  | d :: r => Some (fold_left (fun m x => if date_leb m x then x else m) r d)
  end.

(** Lines 115-116: the range the date picker holds before it is touched. *)
Definition default_range (df : list row) : list date :=
  match date_min (map row_date df), date_max (map row_date df) with
  | Some a, Some b => [a; b]
  | _, _ => []
  end.

(* ================================================================== *)
(** * Successive submissions *)
(* ================================================================== *)

Section Submissions.

Variable b64encode : string -> string.

(** The store after the forms of a list have been submitted one after the
    other, each run of the script starting from the store the run before
    left in the session. *)
Fixpoint submit_all (trades : list trade) (forms : list form)
  : py (list trade) :=
  match forms with
  | [] => Ret trades
  | f :: r =>
      res <- add_trade b64encode trades f ;;
      submit_all (fst res) r
  end.

End Submissions.

(** What the form stores for a type of the R family: the R value of the
    widget and the amount derived from it. *)
Definition r_consistent (t : trade) : Prop :=
  forall ty, ty <> Custom -> Type_ t = code ty ->
    exists r, R_Value t = Some r /\ 1 # 100 <= r
              /\ Amount t == spec_sign ty * spec_multiplier ty * r.

(* ================================================================== *)
(** * The daily candlesticks *)
(* ================================================================== *)

(** A line of [daily_df] (line 170). *)
Record candle : Type := mkCandle {
  candle_date : date;
  Low : Q;
  High : Q;
  Open : Q;
  Close : Q
}.

(** [groupby("Date")]: the keys in ascending order, and the lines of a
    key in the order of the frame. *)
Definition group_keys (df : list row) : list date :=
  sorted_by date_leb (unique date_eqb (map row_date df)).

Definition group (key : date) (df : list row) : list row :=
  filter (fun r => date_eqb (row_date r) key) df.

(** [agg({"Amount": ["min", "max", "first", "last"]})] for one group. *)
Definition agg_amount (key : date) (g : list Q) : option candle :=
  match g with
  | [] => None
  | a :: r =>
      Some {| candle_date := key;
              Low := fold_left Qmin r a;
              High := fold_left Qmax r a;
              Open := a;
              Close := last r a |}
  end.

(** Lines 167-170. *)
Definition daily_df (filtered_df : list row) : list candle :=
  flat_map (fun key =>
              match agg_amount key (amounts (group key filtered_df)) with
              | Some c => [c]
              | None => []
              end)
           (group_keys filtered_df).

(* ================================================================== *)
(** * The trade history table *)
(* ================================================================== *)

(** The camera sign, as its four bytes. *)
Definition camera : string :=
  String "240" (String "159" (String "147" (String "183" EmptyString))).

(** [lambda x: "📷" if x else None]: [None] and the empty string are
    both false. *)
Definition image_flag (x : option string) : option string :=
  match x with
  | Some s => if is_empty s then None else Some camera
  | None => None
  end.

Definition display_row (r : row) : trade :=
  {| Date := Date (base r); Type_ := Type_ (base r);
     R_Value := R_Value (base r); Amount := Amount (base r);
     Image := image_flag (Image (base r)); Notes := Notes (base r) |}.

(** Lines 198-207: the six columns, the image replaced by a flag, the most
    recent trade first. *)
Definition history_table (filtered_df : list row) : list trade :=
  sorted_reverse (fun a b => date_leb (Date a) (Date b))
                 (map display_row filtered_df).

(* ================================================================== *)
(** * Further notions used in the proofs *)
(* ================================================================== *)

(** The break-even lines of a frame. *)
Definition breakeven (df : list row) : list row :=
  filter (fun r => Qeq_bool (Amount (base r)) 0) df.

(** What the trades dated before [d] add up to. *)
Definition sum_before (d : date) (df : list row) : Q :=
  series_sum (amounts (filter (fun r => negb (date_leb d (row_date r))) df)).

(** A filter the widgets can hold without anything typed in: all data, a
    period picked from its select box, or the range the date picker
    starts with. *)
Definition offered (df : list row) (spec : filter_spec) : Prop :=
  df <> [] /\
  match spec with
  | ShowAll => True
  | Weekly w => In w (week_options df)
  | Monthly m => In m (month_options df)
  | Quarterly q => In q (quarter_options df)
  | CustomRange date_range => date_range = default_range df
  end.

(** The forms that pass the check of line 49. *)
Definition accepted (f : form) : bool :=
  match trade_type_in f with
  | Custom => negb (is_none (pnl f))
  | _ => negb (is_none (r_value f))
  end.

Definition in_range_form : form :=
  {| trade_type_in := L2R; r_value := Some 25; pnl := None;
     trade_date := mkDate 2024 2 1; uploaded_image := None;
     notes := "stopped out"%string |}.

(** Equality of a float or infinity up to [==]. *)
Definition xfloat_eq (a b : xfloat) : Prop :=
  match a, b with
  | Fin x, Fin y => x == y
  | Inf, Inf => True
  | _, _ => False
  end.

(** The total of a list of counts. *)
Fixpoint sum_counts (l : list nat) : nat :=
  match l with
  | [] => 0
  | n :: r => n + sum_counts r
  end.

(** The test of the range filter for one line. *)
Definition in_range (d0 d1 : date) (r : row) : bool :=
  date_leb d0 (row_date r) && date_leb (row_date r) d1.

(** A frame in ascending date order. *)
Definition rows_sorted (l : list row) : Prop :=
  StronglySorted (fun r r' => date_le (row_date r) (row_date r')) l.

(** What every line written by the form satisfies: its type is one of
    the five codes, and for an R type it obeys the rule of the amounts. *)
Definition form_made (t : trade) : Prop :=
  (exists ty, Type_ t = code ty) /\ r_consistent t.

(** The sign of the amount agrees with the first letter of the type. *)
Definition sign_agrees (t : trade) : Prop :=
  (startswith (Type_ t) "W" = true -> 0 < Amount t)
  /\ (startswith (Type_ t) "L" = true -> Amount t < 0).

(** Amounts that are whole numbers, with absolute values adding up to at
    most 2^53: on such amounts every sum the script forms is a whole
    number within the range in which binary64 addition and subtraction
    are exact. *)
Definition whole_amounts (l : list Q) : Prop :=
  Forall (fun a => exists z : Z, a == inject_Z z) l
  /\ series_sum (map Qabs l) <= 9007199254740992.

(* ================================================================== *)
(** * The amount rule and the metrics block in binary64 *)
(* ================================================================== *)

(** The same lines of the script with the floats as they are, IEEE 754
    binary64 with round-to-nearest, infinities and NaN. *)
Module Doubles.

Import PrimFloat.

(** The float of a Python [int]. *)
Definition of_nat (n : nat) : float := of_uint63 (Uint63.of_Z (Z.of_nat n)).

(** [float(s)] on a run of decimal digits. *)
Definition float_of_string (s : string) : py float :=
  match s with
  | EmptyString => ValueError
  | _ => n <- digits_value 0 s ;; Ret (of_uint63 (Uint63.of_Z n))
  end.

(** Lines 30-39. *)
Definition compute_amount (t : trade_type) (r_value pnl : option float)
  : py (option float) :=
  if String.eqb (code t) "Custom $" then Ret pnl
  else
    match r_value with
    | None => Ret None
    | Some r =>
        multiplier <- float_of_string (slice_1_m1 (code t)) ;;
        Ret (Some (if startswith (code t) "W"
                   then mul multiplier r
                   else mul (opp multiplier) r))
    end.

Fixpoint running (f : float -> float -> float) (acc : float)
         (l : list float) : list float :=
  match l with
  | [] => []
  | x :: r => let a := f acc x in a :: running f a r
  end.

Definition fmax (a b : float) : float := if ltb a b then b else a.
Definition fmin (a b : float) : float := if ltb b a then b else a.

(** [Series.cumsum()] *)
Definition cumsum (l : list float) : list float :=
  match l with
  | [] => []
  | x :: r => x :: running add x r
  end.

(** [Series.expanding(min_periods=1).max()] *)
Definition expanding_max (l : list float) : list float :=
  match l with
  | [] => []
  | x :: r => x :: running fmax x r
  end.

(** [Series.sum()], adding from left to right.  (The samples below sum
    whole numbers or a single entry, so the order in which a sum is
    formed plays no part in them.) *)
Definition series_sum (l : list float) : float := fold_left add l zero.

(** [Series.min()]: NaN entries are skipped, and the minimum of nothing
    is NaN. *)
Definition series_min (l : list float) : float :=
  match filter (fun x => negb (is_nan x)) l with
  | [] => nan
  | x :: r => fold_left fmin r x
  end.

(** The values of the metrics block; [total_wins] and [total_losses] are
    its local variables of lines 136-137. *)
Record report : Type := mkReport {
  total_trades : nat;
  winning_trades : nat;
  losing_trades : nat;
  win_rate : float;
  total_wins : float;
  total_losses : float;
  profit_factor : float;
  avg_win : float;
  avg_loss : float;
  expectancy : float;
  max_drawdown : float;
  net_pnl : float
}.

(** Lines 129-161 on the [Amount] column of the filtered frame. *)
Definition compute_metrics (amounts : list float) : option report :=
  match amounts with
  | [] => None
  | _ =>
      let total_trades := List.length amounts in
      let winners := filter (fun a => ltb zero a) amounts in
      let losers := filter (fun a => ltb a zero) amounts in
      let winning_trades := List.length winners in
      let losing_trades := List.length losers in
      let win_rate :=
        if (0 <? total_trades)%nat
        then div (of_nat winning_trades) (of_nat total_trades) else zero in
      let total_wins := series_sum winners in
      let total_losses := abs (series_sum losers) in
      let profit_factor :=
        if ltb zero total_losses then div total_wins total_losses
        else infinity in
      let avg_win :=
        if (0 <? winning_trades)%nat
        then div total_wins (of_nat winning_trades) else zero in
      let avg_loss :=
        if (0 <? losing_trades)%nat
        then div total_losses (of_nat losing_trades) else zero in
      let expectancy :=
        add (mul avg_win win_rate) (mul (opp avg_loss) (sub one win_rate)) in
      let cumulative := cumsum amounts in
      let peak := expanding_max cumulative in
      let drawdown :=
        map (fun cp => sub (fst cp) (snd cp)) (combine cumulative peak) in
      Some {| total_trades := total_trades;
              winning_trades := winning_trades;
              losing_trades := losing_trades;
              win_rate := win_rate;
              total_wins := total_wins;
              total_losses := total_losses;
              profit_factor := profit_factor;
              avg_win := avg_win;
              avg_loss := avg_loss;
              expectancy := expectancy;
              max_drawdown := series_min drawdown;
              net_pnl := series_sum amounts |}
  end.

(** Sample inputs: an R value close to the largest float, the amounts of
    a W1R trade of 10.1 followed by an L1R trade of 0.3, the scenario of
    the specification, and a large win beside a small loss. *)
#[warnings="-inexact-float"]
Definition huge_r : float := 1e308.

#[warnings="-inexact-float"]
Definition small_loss_after_win : list float := [10.1; -0.3]%float.


#[warnings="-inexact-float"]
Definition huge_win_small_loss : list float := [1e308; -0.01]%float.

End Doubles.
(* ================================================================== *)
(** * Properties: the amount calculation *)
(* ================================================================== *)

Lemma multiplier_of_code (t : trade_type) :
  t <> Custom ->
  float_of_string (slice_1_m1 (code t)) = Ret (spec_multiplier t).
Proof.
  destruct t; intros H; try reflexivity. now contradict H.
Qed.

Lemma sign_of_code (t : trade_type) :
  t <> Custom ->
  startswith (code t) "W" = match t with W2R | W1R => true | _ => false end.
Proof.
  destruct t; intros H; reflexivity.
Qed.

(** C5. For a type other than Custom and a positive R value the amount is
    sign * m * r_value, with m the number inside the type code and the sign
    that of its first letter; for Custom it is the amount typed in, whatever
    its sign. *)
Theorem compute_amount_rule (t : trade_type) (r : Q) (custom_amount : option Q) :
  t <> Custom -> 0 < r ->
  (exists a, compute_amount t (Some r) custom_amount = Ret (Some a)
             /\ a == spec_sign t * spec_multiplier t * r)
  /\ (forall rv a, compute_amount Custom rv (Some a) = Ret (Some a)).
Proof.
  intros Ht Hr. split.
  - unfold compute_amount.
    replace (String.eqb (code t) "Custom $") with false
      by (destruct t; try reflexivity; now contradict Ht).
    rewrite (multiplier_of_code t Ht), (sign_of_code t Ht). cbn [bind].
    destruct t; (eexists; split; [reflexivity | cbn [spec_sign spec_multiplier]; ring])
               || now contradict Ht.
  - intros rv a. reflexivity.
Qed.

Lemma compute_amount_rule_witness :
  W2R <> Custom /\ 0 < 50
  /\ ((exists a, compute_amount W2R (Some 50) None = Ret (Some a)
                 /\ a == spec_sign W2R * spec_multiplier W2R * 50)
      /\ (forall rv a, compute_amount Custom rv (Some a) = Ret (Some a))).
Proof.
  split; [discriminate | split; [reflexivity |]].
  apply (compute_amount_rule W2R 50 None); [discriminate | reflexivity].
Defined.

Example amount_W2R_50 :
  compute_amount W2R (Some 50) None = Ret (Some (2 * 50)).
Proof. reflexivity. Qed.

Example amount_L1R_75 :
  compute_amount L1R (Some 75) None = Ret (Some (- 1 * 75)).
Proof. reflexivity. Qed.

Example amount_custom_minus_20 :
  compute_amount Custom None (Some (-20)) = Ret (Some (-20)).
Proof. reflexivity. Qed.

(* ================================================================== *)
(** * Properties: the form submission *)
(* ================================================================== *)

Section StoreFacts.

Variable b64encode : string -> string.

Lemma add_trade_returns (trades : list trade) (f : form) :
  exists trades' msg, add_trade b64encode trades f = Ret (trades', msg).
Proof.
  unfold add_trade, compute_amount.
  destruct f as [t rv p d img n]; cbn [trade_type_in r_value pnl].
  destruct t, rv, p; cbn; do 2 eexists; reflexivity.
Qed.

(** C4, amended. For a type other than Custom a submission is rejected
    exactly when the R value input is empty; a Custom submission with an
    amount typed in is accepted and stores that amount.  A rejected
    submission leaves the store as it was, an accepted one appends one
    trade.  (An R value that is not positive never reaches the check: the
    input refuses it, the check of line 49 tests for an empty input
    only.) *)
Theorem add_trade_rejects_empty_r (trades : list trade) (t : trade_type)
        (r typed_pnl : option Q) (d : date) (img : option string)
        (n : string) :
  exists trades' msg,
    add_trade b64encode trades (form_of_widgets t r typed_pnl d img n)
    = Ret (trades', msg)
    /\ (t <> Custom -> (msg = RequiredFieldsError <-> r = None))
    /\ (t = Custom -> forall a, typed_pnl = Some a ->
         msg = TradeSaved
         /\ exists tr, trades' = trades ++ [tr] /\ Amount tr = a)
    /\ (msg = RequiredFieldsError -> trades' = trades)
    /\ (msg = TradeSaved -> exists tr, trades' = trades ++ [tr]).
Proof.
  unfold form_of_widgets, add_trade, compute_amount.
  cbn [trade_type_in r_value pnl trade_date uploaded_image notes].
  destruct t, r as [x|], typed_pnl as [a|]; cbn;
    eexists; eexists; (split; [reflexivity |]);
    (split; [intros Ht; try (now contradict Ht);
             split; intros H; try discriminate H; reflexivity |]);
    (split; [intros Ht;
             first [ discriminate Ht
                   | intros a' Ha';
                     first [ discriminate Ha'
                           | injection Ha' as <-;
                             split; [reflexivity
                                    | eexists; split; reflexivity] ] ] |]);
    (split; intros H; try discriminate H; try reflexivity;
     eexists; reflexivity).
Qed.

End StoreFacts.

(** C4, as the specification states it, fails for a Custom submission
    with nothing typed into the P&L input: no custom amount was supplied,
    yet the submission is accepted and a trade of amount 0 is stored. *)
Lemma custom_untouched_is_saved :
  spec_rejects Custom None None
  /\ add_trade (fun s => s) []
       (form_of_widgets Custom None None (mkDate 2024 1 15) None EmptyString)
     = Ret ([custom_trade (mkDate 2024 1 15) 0], TradeSaved).
Proof. split; reflexivity. Qed.

Example custom_with_amount_is_saved :
  add_trade (fun s => s) []
    (form_of_widgets Custom (Some 50) (Some (-20)) (mkDate 2024 1 15) None
                     EmptyString)
  = Ret ([ {| Date := mkDate 2024 1 15; Type_ := code Custom;
              R_Value := Some 50; Amount := -20; Image := None;
              Notes := EmptyString |} ], TradeSaved).
Proof. reflexivity. Qed.

Example empty_r_is_rejected :
  add_trade (fun s => s) sample_trades
    (form_of_widgets W2R None None (mkDate 2024 1 15) None EmptyString)
  = Ret (sample_trades, RequiredFieldsError).
Proof. reflexivity. Qed.

(* ================================================================== *)
(** * Facts about masks, sums and scans *)
(* ================================================================== *)

Lemma loc_mask_map {A} (p : A -> bool) (l : list A) :
  loc_mask l (map p l) = filter p l.
Proof.
  induction l as [|x l IH]; cbn; [reflexivity |].
  rewrite IH. reflexivity.
Qed.

Lemma loc_mask_and {A} (p q : A -> bool) (l : list A) :
  loc_mask l (map (fun bb => andb (fst bb) (snd bb))
                  (combine (map p l) (map q l)))
  = filter (fun x => p x && q x) l.
Proof.
  induction l as [|x l IH]; cbn; [reflexivity |].
  rewrite IH. reflexivity.
Qed.

Lemma Qltb_lt (x y : Q) : Qltb x y = true <-> x < y.
Proof.
  unfold Qltb. rewrite negb_true_iff. split; intros H.
  - apply Qnot_le_lt. intros L. apply Qle_bool_iff in L. congruence.
  - destruct (Qle_bool y x) eqn:E; [| reflexivity].
    apply Qle_bool_iff in E. lra.
Qed.

Lemma Qltb_ge (x y : Q) : Qltb x y = false <-> y <= x.
Proof.
  unfold Qltb. rewrite negb_false_iff. apply Qle_bool_iff.
Qed.

Lemma running_length (f : Q -> Q -> Q) (l : list Q) :
  forall acc, List.length (running f acc l) = List.length l.
Proof.
  induction l as [|x l IH]; intros acc; cbn; [reflexivity |].
  now rewrite IH.
Qed.

Lemma cumsum_length (l : list Q) : List.length (cumsum l) = List.length l.
Proof.
  destruct l as [|x l]; cbn; [reflexivity |]. now rewrite running_length.
Qed.

Lemma loss_part_nonneg (a : Q) : 0 <= loss_part a.
Proof.
  unfold loss_part. destruct (Qltb a 0) eqn:E.
  - apply Qltb_lt in E. lra.
  - lra.
Qed.

Lemma loss_part_bound (a : Q) : - loss_part a <= a.
Proof.
  unfold loss_part. destruct (Qltb a 0) eqn:E.
  - lra.
  - apply Qltb_ge in E. lra.
Qed.

Lemma loss_sum_nonneg (l : list Q) : 0 <= loss_sum l.
Proof.
  induction l as [|a l IH]; cbn [loss_sum]; [lra |].
  pose proof (loss_part_nonneg a). lra.
Qed.

Lemma gain_part_nonneg (a : Q) : 0 <= gain_part a.
Proof.
  unfold gain_part. destruct (Qltb 0 a) eqn:E.
  - apply Qltb_lt in E. lra.
  - lra.
Qed.

Lemma gain_sum_nonneg (l : list Q) : 0 <= gain_sum l.
Proof.
  induction l as [|a l IH]; cbn [gain_sum]; [lra |].
  pose proof (gain_part_nonneg a). lra.
Qed.

(** The sum over the losing lines is minus the sum of the loss sizes. *)
Lemma losers_sum (df : list row) :
  series_sum (amounts (losers df)) == - loss_sum (amounts df).
Proof.
  unfold losers, amounts. rewrite map_map, loc_mask_map.
  induction df as [|r df IH]; cbn [filter map loss_sum series_sum]; [lra |].
  unfold loss_part at 1. destruct (Qltb (Amount (base r)) 0);
    cbn [map series_sum]; lra.
Qed.

Lemma winners_sum (df : list row) :
  series_sum (amounts (winners df)) == gain_sum (amounts df).
Proof.
  unfold winners, amounts. rewrite map_map, loc_mask_map.
  induction df as [|r df IH]; cbn [filter map gain_sum series_sum]; [lra |].
  unfold gain_part at 1. destruct (Qltb 0 (Amount (base r)));
    cbn [map series_sum]; lra.
Qed.

Lemma total_losses_loss_sum (df : list row) :
  total_losses df == loss_sum (amounts df).
Proof.
  unfold total_losses. rewrite losers_sum.
  rewrite Qabs_opp. apply Qabs_pos, loss_sum_nonneg.
Qed.

Lemma total_wins_gain_sum (df : list row) :
  total_wins df == gain_sum (amounts df).
Proof. apply winners_sum. Qed.

(* ================================================================== *)
(** * Facts about the drawdown series *)
(* ================================================================== *)

Lemma drawdown_from_cons (c p a : Q) (l : list Q) :
  drawdown_from c p (a :: l)
  = (c + a - Qmax p (c + a)) :: drawdown_from (c + a) (Qmax p (c + a)) l.
Proof. reflexivity. Qed.

Lemma drawdown_cons (r : row) (df : list row) :
  drawdown (r :: df)
  = (Amount (base r) - Amount (base r))
      :: drawdown_from (Amount (base r)) (Amount (base r)) (amounts df).
Proof. reflexivity. Qed.

(** Below a peak every drawdown is at most 0, and no deeper than the gap
    already open plus the losses met since. *)
Lemma drawdown_from_bounds (l : list Q) :
  forall c p, c <= p ->
    Forall (fun d => d <= 0 /\ c - p - loss_sum l <= d) (drawdown_from c p l).
Proof.
  induction l as [|a l IH]; intros c p Hcp; [constructor |].
  rewrite drawdown_from_cons. cbn [loss_sum].
  pose proof (loss_part_nonneg a) as Ha0.
  pose proof (loss_part_bound a) as Ha1.
  pose proof (loss_sum_nonneg l) as Hl.
  destruct (Q.max_spec p (c + a)) as [[Hlt Hm] | [Hge Hm]].
  - constructor.
    + rewrite Hm. split; lra.
    + assert (Hle : c + a <= Qmax p (c + a)) by (rewrite Hm; lra).
      specialize (IH _ _ Hle).
      eapply Forall_impl; [| exact IH]. cbn beta.
      intros d [Hd0 Hd]. split; [exact Hd0 |].
      rewrite Hm in Hd. lra.
  - constructor.
    + rewrite Hm. split; lra.
    + assert (Hle : c + a <= Qmax p (c + a)) by (rewrite Hm; lra).
      specialize (IH _ _ Hle).
      eapply Forall_impl; [| exact IH]. cbn beta.
      intros d [Hd0 Hd]. split; [exact Hd0 |].
      rewrite Hm in Hd. lra.
Qed.

(** While the running total keeps rising from the peak, the drawdown
    stays at 0. *)
Lemma drawdown_from_rising (l : list Q) :
  forall c p, p == c -> non_decreasing (c :: running Qplus c l) ->
    Forall (fun d => d == 0) (drawdown_from c p l).
Proof.
  induction l as [|a l IH]; intros c p Hcp Hnd; [constructor |].
  rewrite drawdown_from_cons.
  cbn [running non_decreasing] in Hnd. destruct Hnd as [Hstep Hrest].
  assert (Hm : Qmax p (c + a) == c + a) by (apply Q.max_r; lra).
  constructor.
  - rewrite Hm. lra.
  - apply IH; [exact Hm | exact Hrest].
Qed.

Lemma fold_min_le_start (l : list Q) :
  forall x, fold_left Qmin l x <= x.
Proof.
  induction l as [|y l IH]; intros x; cbn [fold_left]; [lra |].
  eapply Qle_trans; [apply IH | apply Q.le_min_l].
Qed.

Lemma fold_min_lower (b : Q) (l : list Q) :
  forall x, b <= x -> Forall (fun d => b <= d) l -> b <= fold_left Qmin l x.
Proof.
  induction l as [|y l IH]; intros x Hx Hl; cbn [fold_left]; [exact Hx |].
  inversion Hl as [| ? ? Hy Hl']; subst.
  apply IH; [| exact Hl']. apply Q.min_glb; assumption.
Qed.

Lemma fold_min_all_zero (l : list Q) :
  forall x, x == 0 -> Forall (fun d => d == 0) l -> fold_left Qmin l x == 0.
Proof.
  intros x Hx Hl. apply Qle_antisym.
  - eapply Qle_trans; [apply fold_min_le_start | lra].
  - apply fold_min_lower; [lra |].
    eapply Forall_impl; [| exact Hl]. cbn beta. intros d Hd. lra.
Qed.

(** The metrics block yields a report for every frame that is not empty,
    with each field as the script computes it. *)
Lemma compute_metrics_fields (df : list row) :
  df <> [] -> exists r, compute_metrics df = Some r /\ report_fields df r.
Proof.
  destruct df as [|r0 df]; [congruence | intros _].
  unfold compute_metrics. rewrite drawdown_cons. cbn [series_min].
  eexists. split; [reflexivity |].
  unfold report_fields.
  cbn [total_trades winning_trades losing_trades win_rate profit_factor
       avg_win avg_loss expectancy max_drawdown net_pnl].
  repeat split; reflexivity.
Qed.

Lemma compute_metrics_empty : compute_metrics [] = None.
Proof. reflexivity. Qed.

Lemma max_drawdown_bounds (df : list row) (r : MetricsReport) :
  report_fields df r ->
  max_drawdown r <= 0 /\ - loss_sum (amounts df) <= max_drawdown r.
Proof.
  intros (_ & _ & _ & _ & _ & _ & _ & _ & Hmin & _).
  destruct df as [|r0 df]; [discriminate Hmin |].
  rewrite drawdown_cons in Hmin. cbn [series_min] in Hmin.
  injection Hmin as Hmin. rewrite <- Hmin. clear Hmin.
  set (x := Amount (base r0)).
  assert (Hxx : x <= x) by lra.
  pose proof (drawdown_from_bounds (amounts df) x x Hxx) as Hb.
  split.
  - eapply Qle_trans; [apply fold_min_le_start | lra].
  - cbn [amounts map loss_sum]. fold (amounts df). fold x.
    pose proof (loss_part_nonneg x) as Hx0.
    pose proof (loss_sum_nonneg (amounts df)) as Hl0.
    apply fold_min_lower; [lra |].
    eapply Forall_impl; [| exact Hb]. cbn beta. intros d [_ Hd]. lra.
Qed.

(* ================================================================== *)
(** * Properties: the metrics report *)
(* ================================================================== *)

(** C8, as the specification states it, fails when an amount overflows:
    a W2R trade with an R value of 1e308 has the amount 2 * 1e308, which
    is infinity in binary64; the drawdown infinity - infinity is NaN, and
    so is the maximum drawdown, which is then not <= 0. *)
Lemma max_drawdown_is_nan_on_overflow :
  exists a r,
    Doubles.compute_amount W2R (Some Doubles.huge_r) None = Ret (Some a)
    /\ Doubles.compute_metrics [a] = Some r
    /\ PrimFloat.is_nan (Doubles.max_drawdown r) = true
    /\ PrimFloat.leb (Doubles.max_drawdown r) PrimFloat.zero = false.
Proof. eexists. eexists. repeat split. Qed.

(** C8, amended. For amounts and running sums that are finite (the
    rationals of the model), the maximum drawdown of a report is never
    positive, and it is 0 when the running total of the amounts never
    goes down. *)
Theorem max_drawdown_nonpositive (df : list row) :
  df <> [] ->
  exists r, compute_metrics df = Some r
            /\ max_drawdown r <= 0
            /\ (non_decreasing (cumsum (amounts df)) -> max_drawdown r == 0).
Proof.
  intros Hne. destruct (compute_metrics_fields df Hne) as [r [Hr Hf]].
  exists r. split; [exact Hr |]. split.
  - apply (max_drawdown_bounds df r Hf).
  - destruct Hf as (_ & _ & _ & _ & _ & _ & _ & _ & Hmin & _).
    destruct df as [|r0 df]; [congruence |].
    rewrite drawdown_cons in Hmin. cbn [series_min] in Hmin.
    injection Hmin as Hmin. rewrite <- Hmin.
    intros Hnd. apply fold_min_all_zero; [lra |].
    apply drawdown_from_rising; [reflexivity | exact Hnd].
Qed.

Lemma max_drawdown_nonpositive_witness :
  (rising_df <> [] /\ non_decreasing (cumsum (amounts rising_df))
   /\ exists r, compute_metrics rising_df = Some r
                /\ max_drawdown r <= 0 /\ max_drawdown r == 0)
  /\ (sample_df <> []
      /\ exists r, compute_metrics sample_df = Some r
                   /\ max_drawdown r <= 0).
Proof.
  split.
  - assert (Hne : rising_df <> []) by discriminate.
    assert (Hup : non_decreasing (cumsum (amounts rising_df)))
      by (split; [discriminate | exact I]).
    split; [exact Hne | split; [exact Hup |]].
    destruct (max_drawdown_nonpositive rising_df Hne) as [r [Hr [Hle Hz]]].
    exists r. split; [exact Hr | split; [exact Hle | exact (Hz Hup)]].
  - assert (Hne : sample_df <> []) by discriminate.
    split; [exact Hne |].
    destruct (max_drawdown_nonpositive sample_df Hne) as [r [Hr [Hle _]]].
    exists r. split; [exact Hr | exact Hle].
Defined.

(** C10, as the specification states it, fails by rounding: for a gain
    of 10.1 followed by a loss of 0.3 the running sums are 10.1 and
    9.799999999999999, so the maximum drawdown is -0.3000000000000007
    while total_losses is 0.3, and their sum is negative. *)
Lemma drawdown_exceeds_losses_by_rounding :
  exists r, Doubles.compute_metrics Doubles.small_loss_after_win = Some r
    /\ PrimFloat.leb PrimFloat.zero
         (PrimFloat.add (Doubles.total_losses r) (Doubles.max_drawdown r))
       = false.
Proof. eexists. split; reflexivity. Qed.

(** C10, amended. For whole-number amounts whose absolute values add up
    to at most 2^53, where the sums of the script are exact, the maximum
    drawdown is never deeper than the total of the losses:
    total_losses + max_drawdown >= 0. *)
Theorem max_drawdown_within_losses (df : list row) :
  df <> [] -> whole_amounts (amounts df) ->
  exists r, compute_metrics df = Some r
            /\ 0 <= total_losses df + max_drawdown r.
Proof.
  intros Hne _. destruct (compute_metrics_fields df Hne) as [r [Hr Hf]].
  exists r. split; [exact Hr |].
  rewrite total_losses_loss_sum.
  destruct (max_drawdown_bounds df r Hf) as [_ Hlow]. lra.
Qed.

Lemma sample_whole_amounts : whole_amounts (amounts sample_df).
Proof.
  split.
  - repeat constructor; [exists 200%Z | exists (-100)%Z | exists 300%Z];
      reflexivity.
  - discriminate.
Qed.

Lemma max_drawdown_within_losses_witness :
  sample_df <> [] /\ whole_amounts (amounts sample_df)
  /\ exists r, compute_metrics sample_df = Some r
               /\ 0 <= total_losses sample_df + max_drawdown r.
Proof.
  split; [discriminate | split; [exact sample_whole_amounts |]].
  apply (max_drawdown_within_losses sample_df);
    [discriminate | exact sample_whole_amounts].
Defined.

Example sample_report_values :
  exists r, compute_metrics sample_df = Some r
    /\ total_trades r = 3%nat /\ winning_trades r = 2%nat
    /\ losing_trades r = 1%nat
    /\ win_rate r == 2 # 3
    /\ (exists q, profit_factor r = Fin q /\ q == 5)
    /\ avg_win r == 250 /\ avg_loss r == 100
    /\ expectancy r == 400 # 3
    /\ max_drawdown r == -100 /\ net_pnl r == 400.
Proof.
  eexists. split; [reflexivity |].
  cbn [total_trades winning_trades losing_trades win_rate profit_factor
       avg_win avg_loss expectancy max_drawdown net_pnl].
  repeat split; try reflexivity.
  eexists. split; reflexivity.
Qed.






Lemma of_nat_pos (n : nat) : (0 < n)%nat -> 0 < of_nat n.
Proof.
  intros H. unfold of_nat. change 0 with (inject_Z 0).
  rewrite <- Zlt_Qlt. lia.
Qed.





Lemma total_losses_nonneg (df : list row) : 0 <= total_losses df.
Proof. apply Qabs_nonneg. Qed.

(** C2, as the specification states it, fails on a store that holds one
    break-even trade: nothing was won and nothing lost, and the profit
    factor is the infinity sentinel all the same. *)
Lemma profit_factor_flat_is_inf :
  exists r, compute_metrics flat_df = Some r
            /\ profit_factor r = Inf
            /\ total_wins flat_df == 0 /\ total_losses flat_df == 0
            /\ ~ spec_profit_factor flat_df (profit_factor r).
Proof.
  eexists. split; [reflexivity |].
  cbn [profit_factor].
  split; [reflexivity |]. split; [reflexivity |]. split; [reflexivity |].
  intros [[Hinf _] _].
  destruct (Hinf eq_refl) as [_ Hlt].
  vm_compute in Hlt. discriminate Hlt.
Qed.

(** C2, amended. Whenever total_losses = 0 the profit factor is the
    infinity sentinel, whether total_wins is positive or 0; whenever
    total_losses > 0 it is the quotient total_wins / total_losses.  (The
    sentinel does not tell the cases apart in the other direction: in
    binary64 the quotient can itself overflow to infinity.) *)
Theorem profit_factor_sentinel (df : list row) :
  df <> [] ->
  exists r, compute_metrics df = Some r
            /\ (total_losses df == 0 -> profit_factor r = Inf)
            /\ (0 < total_losses df ->
                profit_factor r = Fin (total_wins df / total_losses df)).
Proof.
  intros Hne. destruct (compute_metrics_fields df Hne) as [r [Hr Hf]].
  exists r. split; [exact Hr |].
  destruct Hf as (_ & _ & _ & _ & Hpf & _).
  rewrite Hpf.
  destruct (Qltb 0 (total_losses df)) eqn:E.
  - apply Qltb_lt in E. split; [intros Hz; lra | reflexivity].
  - apply Qltb_ge in E. split; [reflexivity | intros Hpos; lra].
Qed.

Lemma profit_factor_sentinel_witness :
  (flat_df <> [] /\ total_losses flat_df == 0
   /\ exists r, compute_metrics flat_df = Some r /\ profit_factor r = Inf)
  /\ (sample_df <> [] /\ 0 < total_losses sample_df
      /\ exists r, compute_metrics sample_df = Some r
                   /\ profit_factor r
                      = Fin (total_wins sample_df / total_losses sample_df)).
Proof.
  split.
  - assert (Hne : flat_df <> []) by discriminate.
    assert (Hz : total_losses flat_df == 0) by reflexivity.
    split; [exact Hne | split; [exact Hz |]].
    destruct (profit_factor_sentinel flat_df Hne) as [r [Hr [Hinf _]]].
    exists r. split; [exact Hr | exact (Hinf Hz)].
  - assert (Hne : sample_df <> []) by discriminate.
    assert (Hpos : 0 < total_losses sample_df) by reflexivity.
    split; [exact Hne | split; [exact Hpos |]].
    destruct (profit_factor_sentinel sample_df Hne) as [r [Hr [_ Hfin]]].
    exists r. split; [exact Hr | exact (Hfin Hpos)].
Defined.

(** In binary64 a large win beside a small loss gives an infinite profit
    factor although total_losses is positive. *)
Example profit_factor_overflows :
  exists r, Doubles.compute_metrics Doubles.huge_win_small_loss = Some r
    /\ PrimFloat.ltb PrimFloat.zero (Doubles.total_losses r) = true
    /\ PrimFloat.eqb (Doubles.profit_factor r) PrimFloat.infinity = true.
Proof. eexists. repeat split. Qed.

(** C3, as the specification states it, fails: for an empty set of trades
    the metrics block yields no report at all, so none with every field
    at 0. *)
Lemma no_all_zero_report_for_empty :
  ~ exists r, compute_metrics [] = Some r /\ all_zero_report r.
Proof.
  intros [r [H _]]. discriminate H.
Qed.

Lemma compute_metrics_none_iff (df : list row) :
  compute_metrics df = None <-> df = [].
Proof.
  split.
  - intros H. destruct df as [|r0 df]; [reflexivity |].
    destruct (compute_metrics_fields (r0 :: df)) as [r [Hr _]];
      congruence.
  - intros ->. reflexivity.
Qed.

(** C3, amended. An empty set of trades makes nothing fail and yields no
    report: the metrics block is skipped, which happens for the empty set
    only.  The dashboard then shows a notice in place of the report: one
    for an empty store, one for a filter that selects nothing. *)
Theorem empty_set_yields_no_report :
  compute_metrics [] = None
  /\ (forall df, compute_metrics df = None <-> df = [])
  /\ (forall fmt spec, dashboard fmt [] spec = NoTradesYet)
  /\ (forall fmt trades spec,
        trades <> [] -> filter_trades (build_df trades) spec = [] ->
        dashboard fmt trades spec = NoTradesFound).
Proof.
  split; [reflexivity |]. split; [exact compute_metrics_none_iff |].
  split; [reflexivity |].
  intros fmt trades spec Hne Hempty. unfold dashboard.
  destruct trades as [|t trades]; [congruence |].
  rewrite Hempty. reflexivity.
Qed.

(* ================================================================== *)
(** * Properties: dates and the range filter *)
(* ================================================================== *)

(** [date_le] is the order of the calendar: by year, then month, then
    day. *)
Lemma date_le_lex (a b : date) :
  date_le a b <->
  (year a < year b
   \/ (year a = year b
       /\ (month a < month b \/ (month a = month b /\ day a <= day b))))%Z.
Proof.
  unfold date_le, date_leb, date_compare.
  destruct (Z.compare_spec (year a) (year b)) as [Hy|Hy|Hy];
    [destruct (Z.compare_spec (month a) (month b)) as [Hm|Hm|Hm];
       [destruct (Z.compare_spec (day a) (day b)) as [Hd|Hd|Hd] | |] | |];
    split; intros H; try reflexivity; try discriminate H; try lia.
Qed.

Lemma date_le_refl (a : date) : date_le a a.
Proof. apply date_le_lex. lia. Qed.

Lemma date_le_trans (a b c : date) : date_le a b -> date_le b c -> date_le a c.
Proof. rewrite !date_le_lex. lia. Qed.

Lemma date_leb_total (a b : date) : date_leb a b = false -> date_leb b a = true.
Proof.
  intros H. apply date_le_lex.
  assert (Hn : ~ date_le a b) by (unfold date_le; congruence).
  rewrite date_le_lex in Hn. lia.
Qed.

(** C7. With both bounds the range filter keeps exactly the lines dated
    from the start to the end, both included, in their order; with a
    single date in the range (or any range that is not a pair) it hands
    back the whole frame. *)
Theorem range_filter_inclusive (df : list row) :
  (forall d0 d1,
      filter_trades df (CustomRange [d0; d1])
      = filter (fun r => date_leb d0 (row_date r) && date_leb (row_date r) d1) df)
  /\ (forall d0 d1 r,
        In r (filter_trades df (CustomRange [d0; d1]))
        <-> In r df /\ date_le d0 (row_date r) /\ date_le (row_date r) d1)
  /\ (forall d, filter_trades df (CustomRange [d]) = df)
  /\ (forall date_range, List.length date_range <> 2%nat ->
        filter_trades df (CustomRange date_range) = df).
Proof.
  assert (Heq : forall d0 d1,
             filter_trades df (CustomRange [d0; d1])
             = filter (fun r => date_leb d0 (row_date r)
                                && date_leb (row_date r) d1) df).
  { intros d0 d1. cbn [filter_trades].
    apply (loc_mask_and (fun r => date_leb d0 (row_date r))
                        (fun r => date_leb (row_date r) d1)). }
  split; [exact Heq |]. split; [| split].
  - intros d0 d1 r. rewrite Heq, filter_In, andb_true_iff. reflexivity.
  - intros d. reflexivity.
  - intros [|d0 [|d1 [|d2 rng]]] Hlen; try reflexivity.
    now contradict Hlen.
Qed.

Example range_keeps_bounds :
  map (fun r => Amount (base r))
      (filter_trades sample_df
         (CustomRange [mkDate 2024 1 16; mkDate 2024 1 17]))
  = [-100; 300].
Proof. reflexivity. Qed.

Example range_outside_shows_notice :
  dashboard (fun _ => EmptyString) sample_trades
            (CustomRange [mkDate 2025 1 1; mkDate 2025 1 31])
  = NoTradesFound.
Proof. reflexivity. Qed.

(* ================================================================== *)
(** * Facts about the sort and the frame *)
(* ================================================================== *)

Lemma insert_by_date_perm (t : trade) (l : list trade) :
  Permutation (t :: l) (insert_by_date t l).
Proof.
  induction l as [|h l IH]; cbn [insert_by_date]; [reflexivity |].
  destruct (date_leb (Date t) (Date h)); [reflexivity |].
  rewrite perm_swap. now apply perm_skip.
Qed.

Lemma sort_values_perm (l : list trade) : Permutation l (sort_values l).
Proof.
  induction l as [|t l IH]; cbn [sort_values fold_right]; [constructor |].
  etransitivity; [apply perm_skip, IH | apply insert_by_date_perm].
Qed.

Lemma insert_by_date_sorted (t : trade) (l : list trade) :
  Sorted by_date l -> Sorted by_date (insert_by_date t l).
Proof.
  induction l as [|h l IH]; intros Hs; cbn [insert_by_date].
  - repeat constructor.
  - destruct (date_leb (Date t) (Date h)) eqn:E.
    + constructor; [exact Hs | constructor; exact E].
    + apply date_leb_total in E. inversion Hs as [| ? ? Hs' Hhd]; subst.
      constructor; [apply IH; exact Hs' |].
      destruct l as [|h' l]; cbn [insert_by_date].
      * constructor; exact E.
      * destruct (date_leb (Date t) (Date h')); constructor;
          [exact E | inversion Hhd; assumption].
Qed.

Lemma sort_values_sorted (l : list trade) : Sorted by_date (sort_values l).
Proof.
  induction l as [|t l IH]; cbn [sort_values fold_right]; [constructor |].
  apply insert_by_date_sorted, IH.
Qed.

Lemma sort_values_length (l : list trade) :
  List.length (sort_values l) = List.length l.
Proof. symmetry. apply Permutation_length, sort_values_perm. Qed.

Lemma date_eqb_fields (a b : date) :
  date_eqb a b = true
  <-> (year a = year b /\ month a = month b /\ day a = day b)%Z.
Proof.
  unfold date_eqb, date_compare.
  destruct (Z.compare_spec (year a) (year b)) as [Hy|Hy|Hy];
    [destruct (Z.compare_spec (month a) (month b)) as [Hm|Hm|Hm];
       [destruct (Z.compare_spec (day a) (day b)) as [Hd|Hd|Hd] | |] | |];
    split; intros H; try reflexivity; try discriminate H; try lia.
Qed.

Lemma map_fst_combine {A B} (l : list A) :
  forall l' : list B, List.length l = List.length l' ->
    map fst (combine l l') = l.
Proof.
  induction l as [|x l IH]; intros [|y l'] H; cbn in *;
    try reflexivity; try discriminate.
  f_equal. apply IH. now injection H.
Qed.

Lemma map_snd_combine {A B} (l : list A) :
  forall l' : list B, List.length l = List.length l' ->
    map snd (combine l l') = l'.
Proof.
  induction l as [|x l IH]; intros [|y l'] H; cbn in *;
    try reflexivity; try discriminate.
  f_equal. apply IH. now injection H.
Qed.

Lemma build_df_base (trades : list trade) :
  map base (build_df trades) = sort_values trades.
Proof.
  unfold build_df. rewrite map_map. cbn [base].
  apply map_fst_combine. now rewrite cumsum_length, length_map.
Qed.

Lemma build_df_cumulative (trades : list trade) :
  map Cumulative_PnL (build_df trades)
  = cumsum (map Amount (sort_values trades)).
Proof.
  unfold build_df. rewrite map_map. cbn [Cumulative_PnL].
  apply map_snd_combine. now rewrite cumsum_length, length_map.
Qed.

Lemma build_df_amounts (trades : list trade) :
  amounts (build_df trades) = map Amount (sort_values trades).
Proof.
  unfold amounts. rewrite <- build_df_base, map_map. reflexivity.
Qed.

Lemma build_df_length (trades : list trade) :
  List.length (build_df trades) = List.length trades.
Proof.
  rewrite <- (length_map base), build_df_base. apply sort_values_length.
Qed.

(** The frame column is the running sum of the frame's own amounts. *)
Lemma build_df_cumsum (trades : list trade) :
  map Cumulative_PnL (build_df trades) = cumsum (amounts (build_df trades)).
Proof. now rewrite build_df_cumulative, build_df_amounts. Qed.






(** Every filter keeps a sub-sequence of the frame. *)
Lemma filter_trades_is_filter (df : list row) (spec : filter_spec) :
  exists keep, filter_trades df spec = filter keep df.
Proof.
  assert (Hall : df = filter (fun _ => true) df).
  { clear. induction df as [|r df IH]; cbn; [reflexivity | now f_equal]. }
  destruct spec as [| w | m | q | rng]; cbn [filter_trades].
  - eexists. exact Hall.
  - eexists. apply loc_mask_map.
  - eexists. apply loc_mask_map.
  - eexists. apply loc_mask_map.
  - destruct rng as [|d0 [|d1 [|d2 rng]]]; try (eexists; exact Hall).
    eexists.
    apply (loc_mask_and (fun r => date_leb d0 (row_date r))
                        (fun r => date_leb (row_date r) d1)).
Qed.

(* ================================================================== *)
(** * Properties: the cumulative series *)
(* ================================================================== *)

Example sample_cumulative :
  snd (cumulative_chart (filter_trades sample_df ShowAll)) = [200; 100; 400].
Proof. reflexivity. Qed.



(* ================================================================== *)
(** * Properties: the CSV export *)
(* ================================================================== *)

Lemma is_digit_digit (n : Z) : is_digit (digit n) = true.
Proof.
  unfold is_digit, digit.
  assert (H : (0 <= n mod 10 < 10)%Z) by (apply Z.mod_pos_bound; lia).
  rewrite nat_ascii_embedding by lia.
  apply andb_true_iff. split; [apply Nat.leb_le | apply Nat.leb_le]; lia.
Qed.

Lemma isoformat_is_iso8601 (d : date) : is_iso8601_date (isoformat d) = true.
Proof.
  unfold isoformat, pad4, pad2, is_iso8601_date.
  cbn [String.append list_ascii_of_string forallb].
  rewrite !is_digit_digit. reflexivity.
Qed.

Example isoformat_sample : isoformat (mkDate 2024 1 15) = "2024-01-15"%string.
Proof. reflexivity. Qed.

Lemma digit_value_digit (n : Z) : digit_value (digit n) = (n mod 10)%Z.
Proof.
  unfold digit_value, digit.
  assert (H : (0 <= n mod 10 < 10)%Z) by (apply Z.mod_pos_bound; lia).
  rewrite nat_ascii_embedding by lia. lia.
Qed.

(** The rendering of a date of the calendar denotes that date. *)
Lemma date_of_iso_isoformat (d : date) :
  valid_date d -> date_of_iso (isoformat d) = Some d.
Proof.
  intros (Hy & Hm & Hd). unfold date_of_iso.
  rewrite isoformat_is_iso8601.
  unfold isoformat, pad4, pad2.
  cbn [String.append list_ascii_of_string].
  rewrite !digit_value_digit.
  destruct d as [y m dd]; cbn [year month day] in *.
  f_equal. f_equal; Z.div_mod_to_equations; lia.
Qed.

Example week_of_sample :
  toordinal (mkDate 2024 1 15) = 738900%Z
  /\ week_period (mkDate 2024 1 15) = week_period (mkDate 2024 1 21)
  /\ week_period (mkDate 2024 1 14) <> week_period (mkDate 2024 1 15).
Proof. repeat split. discriminate. Qed.

(** C6, as the specification states it, fails: the exported frame carries
    the two derived columns as well, so its header is not the six stored
    columns. *)
Lemma export_header_has_derived_columns :
  ~ spec_export (export_csv (fun _ => "0"%string) flat_df) flat_trades.
Proof.
  intros [records [H _]].
  vm_compute in H. discriminate H.
Qed.

Example export_flat :
  export_csv (fun _ => "0.0"%string) flat_df
  = ("Date,Type,R_Value,Amount,Image,Notes,Cumulative_PnL,Daily_PnL"
       ++ String newline
            ("2024-01-15,Custom $,,0.0,,,0.0,0.0"
               ++ String newline EmptyString))%string.
Proof. reflexivity. Qed.

Lemma append_assoc (a b c : string) : ((a ++ b) ++ c = a ++ (b ++ c))%string.
Proof.
  induction a as [|x a IH]; cbn [String.append]; [reflexivity | now rewrite IH].
Qed.

Lemma append_empty_r (a : string) : (a ++ EmptyString = a)%string.
Proof.
  induction a as [|x a IH]; cbn [String.append]; [reflexivity | now rewrite IH].
Qed.

(** Reading a field written without quotes. *)
Lemma read_plain_field (f : string) :
  needs_quoting f = false ->
  forall acc fs recs rest,
    read_chars (mkReader Plain acc fs recs) (f ++ rest)
    = read_chars (mkReader Plain (acc ++ f) fs recs) rest.
Proof.
  induction f as [|c f IH]; intros Hq acc fs recs rest.
  - now rewrite append_empty_r.
  - cbn [needs_quoting] in Hq.
    apply orb_false_iff in Hq. destruct Hq as [Hq Hf].
    apply orb_false_iff in Hq. destruct Hq as [Hq Hnl].
    apply orb_false_iff in Hq. destruct Hq as [Hco Hdq].
    cbn [String.append read_chars].
    unfold read_char. cbn [mode]. rewrite Hdq, Hco, Hnl.
    unfold push_char. cbn [field fields records].
    rewrite (IH Hf), append_assoc. reflexivity.
Qed.

(** Reading the inside of a quoted field, up to the closing quote. *)
Lemma read_quoted_field (f : string) :
  forall acc fs recs rest,
    read_chars (mkReader Quoted acc fs recs)
               (double_quotes f ++ String dquote rest)
    = read_chars (mkReader AfterQuote (acc ++ f) fs recs) rest.
Proof.
  induction f as [|c f IH]; intros acc fs recs rest.
  - rewrite append_empty_r. reflexivity.
  - cbn [double_quotes]. destruct (Ascii.eqb c dquote) eqn:E.
    + apply Ascii.eqb_eq in E. subst c.
      cbn [String.append read_chars].
      change (read_char (mkReader Quoted acc fs recs) dquote)
        with (mkReader AfterQuote acc fs recs).
      change (read_char (mkReader AfterQuote acc fs recs) dquote)
        with (mkReader Quoted (acc ++ String dquote EmptyString) fs recs).
      rewrite IH, append_assoc. reflexivity.
    + cbn [String.append read_chars].
      unfold read_char at 1. cbn [mode]. rewrite E.
      unfold push_char. cbn [field fields records].
      rewrite IH, append_assoc. reflexivity.
Qed.

Lemma read_field_then_comma (f : string) (fs : list string)
      (recs : list (list string)) (rest : string) :
  read_chars (mkReader Plain EmptyString fs recs)
             (csv_field f ++ String comma rest)
  = read_chars (mkReader Plain EmptyString (f :: fs) recs) rest.
Proof.
  unfold csv_field. destruct (needs_quoting f) eqn:Hq.
  - cbn [String.append read_chars].
    change (read_char (mkReader Plain EmptyString fs recs) dquote)
      with (mkReader Quoted EmptyString fs recs).
    rewrite append_assoc. cbn [String.append].
    rewrite read_quoted_field. reflexivity.
  - rewrite (read_plain_field f Hq). reflexivity.
Qed.

Lemma read_field_then_newline (f : string) (fs : list string)
      (recs : list (list string)) (rest : string) :
  read_chars (mkReader Plain EmptyString fs recs)
             (csv_field f ++ String newline rest)
  = read_chars (mkReader Plain EmptyString [] (rev (f :: fs) :: recs)) rest.
Proof.
  unfold csv_field. destruct (needs_quoting f) eqn:Hq.
  - cbn [String.append read_chars].
    change (read_char (mkReader Plain EmptyString fs recs) dquote)
      with (mkReader Quoted EmptyString fs recs).
    rewrite append_assoc. cbn [String.append].
    rewrite read_quoted_field. reflexivity.
  - rewrite (read_plain_field f Hq). reflexivity.
Qed.

Lemma read_line (line : list string) :
  line <> [] ->
  forall fs recs rest,
    read_chars (mkReader Plain EmptyString fs recs) (csv_line line ++ rest)
    = read_chars (mkReader Plain EmptyString [] ((rev fs ++ line) :: recs))
                 rest.
Proof.
  unfold csv_line.
  induction line as [|f line IH]; intros Hne fs recs rest; [congruence |].
  destruct line as [|g line].
  - cbn [map join_fields]. rewrite append_assoc. cbn [String.append].
    rewrite read_field_then_newline. reflexivity.
  - change (join_fields (map csv_field (f :: g :: line)))
      with (csv_field f ++ String comma
              (join_fields (map csv_field (g :: line))))%string.
    set (J := join_fields (map csv_field (g :: line))) in *.
    assert (E : (((csv_field f ++ String comma J)
                    ++ String newline EmptyString) ++ rest
                 = csv_field f
                     ++ String comma
                          ((J ++ String newline EmptyString) ++ rest))%string)
      by (rewrite !append_assoc; reflexivity).
    rewrite E, read_field_then_comma.
    rewrite IH by discriminate.
    cbn [rev]. rewrite <- app_assoc. reflexivity.
Qed.

Lemma read_lines (lines : list (list string)) :
  Forall (fun line => line <> []) lines ->
  forall recs,
    read_chars (mkReader Plain EmptyString [] recs)
               (concat_lines (map csv_line lines))
    = mkReader Plain EmptyString [] (rev lines ++ recs).
Proof.
  induction 1 as [|line lines Hne _ IH]; intros recs; [reflexivity |].
  cbn [map concat_lines]. rewrite (read_line line Hne).
  rewrite IH. cbn [rev]. rewrite <- app_assoc. reflexivity.
Qed.

(** What [to_csv] writes is read back as it was. *)
Lemma read_csv_to_csv (columns : list string) (recs : list (list string)) :
  columns <> [] -> Forall (fun line => line <> []) recs ->
  read_csv (to_csv columns recs) = columns :: recs.
Proof.
  intros Hc Hr. unfold read_csv, to_csv.
  rewrite read_lines by (constructor; assumption).
  unfold read_end. cbn [mode field fields records].
  rewrite app_nil_r. apply rev_involutive.
Qed.

(** C6, amended. The export is the whole frame: read back, the stream is a
    header with the six stored columns followed by Cumulative_PnL and
    Daily_PnL, then one record of eight fields per trade of the store, in
    date order, each starting with the ISO-8601 date of its trade. *)
Theorem export_csv_layout (fmt_float : Q -> string) (trades : list trade) :
  let df := build_df trades in
  exists recs,
    read_csv (export_csv fmt_float df)
    = (spec_columns ++ ["Cumulative_PnL"; "Daily_PnL"]%string) :: recs
    /\ List.length recs = List.length trades
    /\ Forall (fun rec => List.length rec = 8%nat
                          /\ is_iso8601_date (hd EmptyString rec) = true)
              recs
    /\ map (hd EmptyString) recs
       = map (fun t => isoformat (Date t)) (sort_values trades)
    /\ exists rest,
        export_csv fmt_float df
        = ("Date,Type,R_Value,Amount,Image,Notes,Cumulative_PnL,Daily_PnL"
             ++ String newline rest)%string.
Proof.
  intros df. exists (map (cells fmt_float) df).
  split.
  { unfold export_csv. apply read_csv_to_csv; [discriminate |].
    apply Forall_forall. intros rec Hin.
    apply in_map_iff in Hin. destruct Hin as [r [<- _]]. discriminate. }
  split; [now rewrite length_map; apply build_df_length |].
  split.
  - apply Forall_forall. intros rec Hin.
    apply in_map_iff in Hin. destruct Hin as [r [<- _]].
    split; [reflexivity | apply isoformat_is_iso8601].
  - split.
    + rewrite map_map. cbn [cells hd].
      unfold df. rewrite <- build_df_base, map_map. reflexivity.
    + eexists. reflexivity.
Qed.

Example read_quoted_note :
  read_csv (to_csv ["Notes"; "Amount"]
                   [["stopped out, re-entered"; "1.5"]])%string
  = [["Notes"; "Amount"]; ["stopped out, re-entered"; "1.5"]]%string.
Proof. reflexivity. Qed.

(* ================================================================== *)
(** * Further properties: successive submissions *)
(* ================================================================== *)

Lemma amount_of_r_type (t : trade_type) (r : Q) (p : option Q) (a : Q) :
  t <> Custom ->
  compute_amount t (Some r) p = Ret (Some a) ->
  a == spec_sign t * spec_multiplier t * r.
Proof.
  intros Ht H. destruct t; try (now contradict Ht);
    cbn in H; injection H as <-; cbn [spec_sign spec_multiplier]; ring.
Qed.

Section SubmissionFacts.

Variable b64encode : string -> string.

(** One submission: the store is kept as it is, or gets one line at its
    end that carries the entries of the form. *)
Lemma add_trade_cases (trades : list trade) (f : form) :
  (accepted f = false
   /\ add_trade b64encode trades f = Ret (trades, RequiredFieldsError))
  \/ (accepted f = true
      /\ exists t,
          add_trade b64encode trades f = Ret (trades ++ [t], TradeSaved)
          /\ Date t = trade_date f
          /\ Type_ t = code (trade_type_in f)
          /\ R_Value t = r_value f
          /\ Image t = option_map b64encode (uploaded_image f)
          /\ Notes t = notes f
          /\ compute_amount (trade_type_in f) (r_value f) (pnl f)
             = Ret (Some (Amount t))).
Proof.
  unfold accepted, add_trade, compute_amount.
  destruct f as [t rv p d img n];
    cbn [trade_type_in r_value pnl trade_date uploaded_image notes].
  destruct t, rv as [r|], p as [a|]; cbn;
    first [ left; split; reflexivity
          | right; split; [reflexivity |];
            eexists; split; [reflexivity |]; cbn; repeat split ].
Qed.

(** X1. Submitting forms one after the other never raises and never
    touches what the store already holds: the result is the old store
    followed by one line per accepted form, in the order of submission,
    each with the date, type code and notes of its form. *)
Theorem submit_all_appends (trades : list trade) (forms : list form) :
  exists saved,
    submit_all b64encode trades forms = Ret (trades ++ saved)
    /\ map Date saved = map trade_date (filter accepted forms)
    /\ map Type_ saved
       = map (fun f => code (trade_type_in f)) (filter accepted forms)
    /\ map Notes saved = map notes (filter accepted forms).
Proof.
  revert trades. induction forms as [|f forms IH]; intros trades.
  - exists []. cbn. rewrite app_nil_r. repeat split; reflexivity.
  - cbn [submit_all filter].
    destruct (add_trade_cases trades f) as [[Hacc Hadd] | [Hacc [t Ht]]].
    + rewrite Hadd, Hacc. cbn [bind fst]. apply IH.
    + destruct Ht as (Hadd & Hd & Hty & _ & _ & Hn & _).
      rewrite Hadd, Hacc. cbn [bind fst].
      destruct (IH (trades ++ [t])) as (saved & Hs & Hds & Hts & Hns).
      exists (t :: saved). rewrite Hs, <- app_assoc. cbn [app map].
      rewrite Hd, Hty, Hn, Hds, Hts, Hns. repeat split; reflexivity.
Qed.

(** X2. The store keeps the rule of the amounts: when every form holds an
    R value within the bounds of its input, every line of an R type that
    the store gains holds that R value and the amount
    sign * multiplier * R. *)
Theorem submit_all_keeps_amount_rule (trades : list trade) (forms : list form) :
  Forall r_value_in_range forms ->
  Forall r_consistent trades ->
  exists trades',
    submit_all b64encode trades forms = Ret trades'
    /\ Forall r_consistent trades'.
Proof.
  intros Hforms. revert trades.
  induction Hforms as [|f forms Hf _ IH]; intros trades Hinv.
  - exists trades. split; [reflexivity | exact Hinv].
  - cbn [submit_all].
    destruct (add_trade_cases trades f) as [[_ Hadd] | [Hacc [t Ht]]].
    + rewrite Hadd. cbn [bind fst]. apply IH, Hinv.
    + destruct Ht as (Hadd & _ & Hty & Hrv & _ & _ & Hamt).
      rewrite Hadd. cbn [bind fst]. apply IH.
      apply Forall_app. split; [exact Hinv |].
      constructor; [| constructor].
      intros ty Hty_nc Hcode. rewrite Hty in Hcode.
      assert (Heq : trade_type_in f = ty)
        by (destruct (trade_type_in f), ty; try discriminate Hcode;
            reflexivity).
      subst ty.
      unfold accepted in Hacc. unfold r_value_in_range in Hf.
      destruct (r_value f) as [r|] eqn:Er;
        [| destruct (trade_type_in f); try discriminate Hacc;
           now contradict Hty_nc].
      exists r. split; [now rewrite Hrv |]. split; [exact Hf |].
      apply (amount_of_r_type (trade_type_in f) r (pnl f)); assumption.
Qed.

End SubmissionFacts.

Lemma submit_all_keeps_amount_rule_witness :
  Forall r_value_in_range [in_range_form; empty_form]
  /\ Forall r_consistent []
  /\ exists trades',
      submit_all (fun s => s) [] [in_range_form; empty_form] = Ret trades'
      /\ Forall r_consistent trades'.
Proof.
  assert (H1 : Forall r_value_in_range [in_range_form; empty_form]).
  { repeat constructor. cbn. discriminate. }
  split; [exact H1 | split; [constructor |]].
  apply (submit_all_keeps_amount_rule (fun s => s) [] _ H1). constructor.
Defined.

(* ================================================================== *)
(** * Further properties: the metrics report *)
(* ================================================================== *)

(** Every line is a winner, a loser or a break-even line. *)
Lemma three_way_count (df : list row) :
  (List.length (winners df) + List.length (losers df)
   + List.length (breakeven df))%nat = List.length df.
Proof.
  unfold winners, losers, breakeven, amounts.
  rewrite !map_map, !loc_mask_map.
  induction df as [|r df IH]; [reflexivity |].
  cbn [filter List.length].
  destruct (Qltb 0 (Amount (base r))) eqn:Eg,
           (Qltb (Amount (base r)) 0) eqn:El,
           (Qeq_bool (Amount (base r)) 0) eqn:Ez;
    try apply Qltb_lt in Eg; try apply Qltb_lt in El;
    try apply Qltb_ge in Eg; try apply Qltb_ge in El;
    try apply Qeq_bool_neq in Ez; try apply (proj1 (Qeq_bool_iff _ _)) in Ez;
    cbn [List.length]; try lia; exfalso; lra.
Qed.

Lemma of_nat_le (a b : nat) : (a <= b)%nat -> of_nat a <= of_nat b.
Proof.
  intros H. unfold of_nat. rewrite <- Zle_Qle. lia.
Qed.

Lemma ratio_nonneg (x : Q) (n : nat) :
  0 <= x -> 0 <= (if (0 <? n)%nat then x / of_nat n else 0).
Proof.
  intros Hx. destruct n as [|n]; cbn [Nat.ltb Nat.leb]; [lra |].
  apply Qle_shift_div_l; [apply of_nat_pos; lia | lra].
Qed.

(** X3. The rates of a report stay within their bounds: the win rate lies
    between 0 and 1, winners and losers together are at most all trades
    (all of them exactly when no trade broke even), the two averages are
    not negative, and a finite profit factor is not negative. *)
Theorem report_bounds (df : list row) :
  df <> [] ->
  exists r, compute_metrics df = Some r
    /\ 0 <= win_rate r <= 1
    /\ (winning_trades r + losing_trades r <= total_trades r)%nat
    /\ ((winning_trades r + losing_trades r)%nat = total_trades r
        <-> breakeven df = [])
    /\ 0 <= avg_win r /\ 0 <= avg_loss r
    /\ (forall q, profit_factor r = Fin q -> 0 <= q).
Proof.
  intros Hne. destruct (compute_metrics_fields df Hne) as [r [Hr Hf]].
  exists r. split; [exact Hr |].
  destruct Hf as (Ht & Hw & Hl & Hwr & Hpf & Haw & Hal & _).
  pose proof (three_way_count df) as H3.
  rewrite <- Hw, <- Hl, <- Ht in H3.
  assert (HN : 0 < of_nat (total_trades r)).
  { apply of_nat_pos. rewrite Ht. destruct df; [congruence | cbn; lia]. }
  split; [| split; [| split; [| split; [| split]]]].
  - rewrite Hwr. split.
    + apply Qle_shift_div_l; [exact HN |].
      rewrite Qmult_0_l. change 0 with (of_nat 0). apply of_nat_le. lia.
    + apply Qle_shift_div_r; [exact HN |].
      rewrite Qmult_1_l. apply of_nat_le. lia.
  - lia.
  - split; intros H.
    + destruct (breakeven df); [reflexivity | cbn in H3; lia].
    + rewrite H in H3. cbn in H3. lia.
  - rewrite Haw. apply ratio_nonneg.
    rewrite total_wins_gain_sum. apply gain_sum_nonneg.
  - rewrite Hal. apply ratio_nonneg, total_losses_nonneg.
  - intros q Hq. rewrite Hpf in Hq.
    destruct (Qltb 0 (total_losses df)) eqn:E; [| discriminate Hq].
    injection Hq as <-. apply Qltb_lt in E.
    apply Qle_shift_div_l; [exact E |].
    rewrite Qmult_0_l, total_wins_gain_sum. apply gain_sum_nonneg.
Qed.

Lemma report_bounds_witness :
  sample_df <> []
  /\ exists r, compute_metrics sample_df = Some r
    /\ 0 <= win_rate r <= 1
    /\ (winning_trades r + losing_trades r <= total_trades r)%nat
    /\ ((winning_trades r + losing_trades r)%nat = total_trades r
        <-> breakeven sample_df = [])
    /\ 0 <= avg_win r /\ 0 <= avg_loss r
    /\ (forall q, profit_factor r = Fin q -> 0 <= q).
Proof.
  split; [discriminate |].
  apply (report_bounds sample_df). discriminate.
Defined.

Lemma fold_min_in (l : list Q) :
  forall x, In (fold_left Qmin l x) (x :: l).
Proof.
  induction l as [|y l IH]; intros x; cbn [fold_left]; [now left |].
  destruct (IH (Qmin x y)) as [H | H].
  - rewrite <- H. unfold Qmin, GenericMinMax.gmin.
    destruct (x ?= y); [left | left | right; left]; reflexivity.
  - right. right. exact H.
Qed.

Lemma fold_min_le_all (l : list Q) :
  forall x, Forall (fun y => fold_left Qmin l x <= y) l.
Proof.
  induction l as [|y l IH]; intros x; cbn [fold_left]; constructor.
  - eapply Qle_trans; [apply fold_min_le_start | apply Q.le_min_r].
  - apply IH.
Qed.

Lemma drawdown_from_zero_rising (l : list Q) :
  forall c p, p == c ->
    Forall (fun d => d == 0) (drawdown_from c p l) ->
    non_decreasing (c :: running Qplus c l).
Proof.
  induction l as [|a l IH]; intros c p Hcp Hz; [exact I |].
  rewrite drawdown_from_cons in Hz.
  inversion Hz as [| ? ? Hd Hrest]; subst.
  assert (Hm : Qmax p (c + a) == c + a) by lra.
  cbn [running non_decreasing]. split.
  - pose proof (Q.le_max_l p (c + a)). lra.
  - apply (IH _ _ Hm Hrest).
Qed.

(** X5. For amounts and running sums that are finite (the rationals of
    the model), the drawdown series starts at 0 and never rises above it,
    the maximum drawdown is one of its values, and a maximum drawdown of
    0 means that the running total never went down. *)
Theorem max_drawdown_zero_means_rising (df : list row) :
  df <> [] ->
  exists r, compute_metrics df = Some r
    /\ (exists d0, hd_error (drawdown df) = Some d0 /\ d0 == 0)
    /\ Forall (fun d => d <= 0) (drawdown df)
    /\ In (max_drawdown r) (drawdown df)
    /\ (max_drawdown r == 0 -> non_decreasing (cumsum (amounts df))).
Proof.
  intros Hne. destruct (compute_metrics_fields df Hne) as [r [Hr Hf]].
  exists r. split; [exact Hr |].
  destruct Hf as (_ & _ & _ & _ & _ & _ & _ & _ & Hmin & _).
  destruct df as [|r0 df]; [congruence |].
  rewrite drawdown_cons in *. cbn [series_min] in Hmin.
  injection Hmin as Hmin. rewrite <- Hmin.
  set (x := Amount (base r0)) in *.
  assert (Hxx : x <= x) by lra.
  pose proof (drawdown_from_bounds (amounts df) x x Hxx) as Hb.
  split; [exists (x - x); split; [reflexivity | lra] |]. split; [| split].
  - constructor; [lra |].
    eapply Forall_impl; [| exact Hb]. cbn beta. intros d [Hd _]. exact Hd.
  - apply fold_min_in.
  - intros Hz.
    apply (drawdown_from_zero_rising (amounts df) x x); [reflexivity |].
    pose proof (fold_min_le_all (drawdown_from x x (amounts df)) (x - x))
      as Hall.
    rewrite Forall_forall in *. intros d Hd.
    specialize (Hall d Hd). destruct (Hb d Hd) as [Hd0 _]. lra.
Qed.

Lemma max_drawdown_zero_means_rising_witness :
  rising_df <> []
  /\ exists r, compute_metrics rising_df = Some r
    /\ (exists d0, hd_error (drawdown rising_df) = Some d0 /\ d0 == 0)
    /\ Forall (fun d => d <= 0) (drawdown rising_df)
    /\ In (max_drawdown r) (drawdown rising_df)
    /\ max_drawdown r == 0
    /\ non_decreasing (cumsum (amounts rising_df)).
Proof.
  assert (Hne : rising_df <> []) by discriminate.
  split; [exact Hne |].
  destruct (max_drawdown_zero_means_rising rising_df Hne)
    as (r & Hr & Hhd & Hall & Hin & Hconv).
  assert (Hz : max_drawdown r == 0).
  { assert (E : compute_metrics rising_df = compute_metrics rising_df)
      by reflexivity.
    rewrite Hr in E at 1. unfold rising_df in E. cbn in E.
    injection E as E. rewrite E. reflexivity. }
  exists r. split; [exact Hr |]. split; [exact Hhd |].
  split; [exact Hall |]. split; [exact Hin |].
  split; [exact Hz | exact (Hconv Hz)].
Defined.

Lemma filter_perm {A} (p : A -> bool) (l l' : list A) :
  Permutation l l' -> Permutation (filter p l) (filter p l').
Proof.
  induction 1 as [| x l l' _ IH | x y l | l l' l'' _ IH1 _ IH2];
    cbn [filter].
  - constructor.
  - destruct (p x); [now constructor | exact IH].
  - destruct (p x), (p y); try reflexivity. apply perm_swap.
  - etransitivity; eassumption.
Qed.

Lemma series_sum_perm (l l' : list Q) :
  Permutation l l' -> series_sum l == series_sum l'.
Proof.
  induction 1 as [| x l l' _ IH | x y l | l l' l'' _ IH1 _ IH2];
    cbn [series_sum]; try lra.
Qed.

Lemma gain_sum_perm (l l' : list Q) :
  Permutation l l' -> gain_sum l == gain_sum l'.
Proof.
  induction 1 as [| x l l' _ IH | x y l | l l' l'' _ IH1 _ IH2];
    cbn [gain_sum]; try lra.
Qed.

Lemma loss_sum_perm (l l' : list Q) :
  Permutation l l' -> loss_sum l == loss_sum l'.
Proof.
  induction 1 as [| x l l' _ IH | x y l | l l' l'' _ IH1 _ IH2];
    cbn [loss_sum]; try lra.
Qed.

Lemma winners_length_perm (df df' : list row) :
  Permutation df df' ->
  List.length (winners df) = List.length (winners df').
Proof.
  intros H. unfold winners, amounts. rewrite !map_map, !loc_mask_map.
  apply Permutation_length, filter_perm, H.
Qed.

Lemma losers_length_perm (df df' : list row) :
  Permutation df df' ->
  List.length (losers df) = List.length (losers df').
Proof.
  intros H. unfold losers, amounts. rewrite !map_map, !loc_mask_map.
  apply Permutation_length, filter_perm, H.
Qed.

Lemma Qltb_comp (x y y' : Q) : y == y' -> Qltb x y = Qltb x y'.
Proof.
  intros H. destruct (Qltb x y) eqn:E, (Qltb x y') eqn:E';
    try reflexivity;
    try apply Qltb_lt in E; try apply Qltb_lt in E';
    try apply Qltb_ge in E; try apply Qltb_ge in E'; exfalso; lra.
Qed.

Lemma ratio_comp (x x' : Q) (n : nat) :
  x == x' ->
  (if (0 <? n)%nat then x / of_nat n else 0)
  == (if (0 <? n)%nat then x' / of_nat n else 0).
Proof.
  intros H. destruct (0 <? n)%nat; [now rewrite H | reflexivity].
Qed.

(** X6. For whole-number amounts whose absolute values add up to at most
    2^53, where the sums of the script are exact, counts, rates, averages,
    profit factor, expectancy and net P&L of a report depend on which
    trades are in the set and not on their order.  (The maximum drawdown
    is the one field that does follow the order.) *)
Theorem report_order_independent (df df' : list row) :
  Permutation df df' -> df <> [] -> whole_amounts (amounts df) ->
  exists r r',
    compute_metrics df = Some r /\ compute_metrics df' = Some r'
    /\ total_trades r = total_trades r'
    /\ winning_trades r = winning_trades r'
    /\ losing_trades r = losing_trades r'
    /\ win_rate r == win_rate r'
    /\ xfloat_eq (profit_factor r) (profit_factor r')
    /\ avg_win r == avg_win r' /\ avg_loss r == avg_loss r'
    /\ expectancy r == expectancy r'
    /\ net_pnl r == net_pnl r'.
Proof.
  intros Hp Hne _.
  assert (Hne' : df' <> []).
  { intros E. subst df'. apply Permutation_sym, Permutation_nil in Hp.
    contradiction. }
  destruct (compute_metrics_fields df Hne) as [r [Hr Hf]].
  destruct (compute_metrics_fields df' Hne') as [r' [Hr' Hf']].
  exists r, r'. split; [exact Hr |]. split; [exact Hr' |].
  destruct Hf as (Ht & Hw & Hl & Hwr & Hpf & Haw & Hal & He & _ & Hnet).
  destruct Hf' as (Ht' & Hw' & Hl' & Hwr' & Hpf' & Haw' & Hal' & He' & _ & Hnet').
  assert (Et : total_trades r = total_trades r')
    by (rewrite Ht, Ht'; apply Permutation_length, Hp).
  assert (Ew : winning_trades r = winning_trades r')
    by (rewrite Hw, Hw'; apply winners_length_perm, Hp).
  assert (El : losing_trades r = losing_trades r')
    by (rewrite Hl, Hl'; apply losers_length_perm, Hp).
  assert (Hamt : Permutation (amounts df) (amounts df'))
    by (apply Permutation_map, Hp).
  assert (Etw : total_wins df == total_wins df')
    by (rewrite !total_wins_gain_sum; apply gain_sum_perm, Hamt).
  assert (Etl : total_losses df == total_losses df')
    by (rewrite !total_losses_loss_sum; apply loss_sum_perm, Hamt).
  assert (Ewr : win_rate r == win_rate r')
    by (rewrite Hwr, Hwr', Ew, Et; reflexivity).
  assert (Eaw : avg_win r == avg_win r')
    by (rewrite Haw, Haw', Ew; apply ratio_comp, Etw).
  assert (Eal : avg_loss r == avg_loss r')
    by (rewrite Hal, Hal', El; apply ratio_comp, Etl).
  repeat (split; [assumption |]).
  split; [| split; [exact Eaw | split; [exact Eal | split]]].
  - rewrite Hpf, Hpf', (Qltb_comp 0 _ _ Etl).
    destruct (Qltb 0 (total_losses df')); cbn; [| exact I].
    now rewrite Etw, Etl.
  - rewrite He, He', Eaw, Eal, Ewr. reflexivity.
  - rewrite Hnet, Hnet'. apply series_sum_perm, Hamt.
Qed.

Lemma report_order_independent_witness :
  Permutation sample_df (rev sample_df) /\ sample_df <> []
  /\ whole_amounts (amounts sample_df)
  /\ exists r r',
    compute_metrics sample_df = Some r
    /\ compute_metrics (rev sample_df) = Some r'
    /\ total_trades r = total_trades r'
    /\ winning_trades r = winning_trades r'
    /\ losing_trades r = losing_trades r'
    /\ win_rate r == win_rate r'
    /\ xfloat_eq (profit_factor r) (profit_factor r')
    /\ avg_win r == avg_win r' /\ avg_loss r == avg_loss r'
    /\ expectancy r == expectancy r'
    /\ net_pnl r == net_pnl r'.
Proof.
  split; [apply Permutation_rev | split; [discriminate |]].
  split; [exact sample_whole_amounts |].
  apply (report_order_independent sample_df (rev sample_df));
    [apply Permutation_rev | discriminate | exact sample_whole_amounts].
Defined.

(* ================================================================== *)
(** * Further properties: the dashboard as a whole *)
(* ================================================================== *)

Lemma filter_length_le {A} (p : A -> bool) (l : list A) :
  (List.length (filter p l) <= List.length l)%nat.
Proof.
  induction l as [|x l IH]; cbn [filter List.length]; [lia |].
  destruct (p x); cbn [List.length]; lia.
Qed.

(** X7. With all data shown, a store that is not empty always gets a
    report, and the report counts as many trades as the store holds.  The
    exported stream is the same under every filter that shows a report,
    and no filter shows more trades than the store holds. *)
Theorem show_all_covers_the_store (fmt_float : Q -> string)
        (trades : list trade) :
  trades <> [] ->
  exists report chart,
    dashboard fmt_float trades ShowAll
    = Shown report chart (export_csv fmt_float (build_df trades))
    /\ total_trades report = List.length trades
    /\ (forall spec report' chart' csv',
          dashboard fmt_float trades spec = Shown report' chart' csv' ->
          csv' = export_csv fmt_float (build_df trades)
          /\ (total_trades report' <= List.length trades)%nat).
Proof.
  intros Hne.
  assert (Hdf : build_df trades <> []).
  { intros E. apply (f_equal (@List.length row)) in E.
    rewrite build_df_length in E. destruct trades; [congruence | discriminate]. }
  destruct (compute_metrics_fields _ Hdf) as [r [Hr Hf]].
  exists r, (cumulative_chart (build_df trades)).
  destruct trades as [|t trades]; [congruence |].
  split; [| split].
  - unfold dashboard. cbn [filter_trades]. rewrite Hr. reflexivity.
  - destruct Hf as (Ht & _). rewrite Ht. apply build_df_length.
  - intros spec r' chart' csv' Hd. unfold dashboard in Hd.
    destruct (compute_metrics (filter_trades (build_df (t :: trades)) spec))
      as [rep|] eqn:Hrep; [| discriminate Hd].
    injection Hd as <- _ <-. split; [reflexivity |].
    assert (Hne' : filter_trades (build_df (t :: trades)) spec <> [])
      by (intros E; rewrite E in Hrep; discriminate Hrep).
    destruct (compute_metrics_fields _ Hne') as [rep' [Hrep' (Ht' & _)]].
    assert (rep' = rep) by congruence. subst rep'.
    rewrite Ht'.
    destruct (filter_trades_is_filter (build_df (t :: trades)) spec)
      as [keep ->].
    rewrite <- (build_df_length (t :: trades)). apply filter_length_le.
Qed.

Lemma show_all_covers_the_store_witness :
  sample_trades <> []
  /\ exists report chart,
    dashboard (fun _ => EmptyString) sample_trades ShowAll
    = Shown report chart (export_csv (fun _ => EmptyString)
                                     (build_df sample_trades))
    /\ total_trades report = List.length sample_trades
    /\ (forall spec report' chart' csv',
          dashboard (fun _ => EmptyString) sample_trades spec
          = Shown report' chart' csv' ->
          csv' = export_csv (fun _ => EmptyString) (build_df sample_trades)
          /\ (total_trades report' <= List.length sample_trades)%nat).
Proof.
  split; [discriminate |].
  apply (show_all_covers_the_store (fun _ => EmptyString) sample_trades).
  discriminate.
Defined.

(* ================================================================== *)
(** * Facts about [unique] and [sorted] *)
(* ================================================================== *)

Section UniqueSorted.

Context {A : Type}.
Variable eqb : A -> A -> bool.
Hypothesis eqb_eq : forall x y, eqb x y = true <-> x = y.
Variable leb : A -> A -> bool.
Hypothesis leb_total : forall x y, leb x y = false -> leb y x = true.

Lemma unique_In (l : list A) (x : A) : In x (unique eqb l) <-> In x l.
Proof.
  induction l as [|y l IH]; cbn [unique]; [reflexivity |].
  cbn [In]. rewrite filter_In, IH, negb_true_iff. split.
  - intros [H | [H _]]; [left | right]; assumption.
  - intros [H | H]; [now left |].
    destruct (eqb y x) eqn:E; [left; now apply eqb_eq | right; now split].
Qed.

Lemma unique_NoDup (l : list A) : NoDup (unique eqb l).
Proof.
  induction l as [|y l IH]; cbn [unique]; constructor.
  - rewrite filter_In, negb_true_iff. intros [_ H].
    assert (eqb y y = true) by now apply eqb_eq. congruence.
  - now apply NoDup_filter.
Qed.

Lemma insert_by_perm (x : A) (l : list A) :
  Permutation (x :: l) (insert_by leb x l).
Proof.
  induction l as [|h l IH]; cbn [insert_by]; [reflexivity |].
  destruct (leb x h); [reflexivity |].
  rewrite perm_swap. now apply perm_skip.
Qed.

Lemma sorted_by_perm (l : list A) : Permutation l (sorted_by leb l).
Proof.
  induction l as [|x l IH]; cbn [sorted_by fold_right]; [constructor |].
  etransitivity; [apply perm_skip, IH | apply insert_by_perm].
Qed.

Lemma insert_by_sorted (x : A) (l : list A) :
  Sorted (fun a b => leb a b = true) l ->
  Sorted (fun a b => leb a b = true) (insert_by leb x l).
Proof.
  induction l as [|h l IH]; intros Hs; cbn [insert_by].
  - repeat constructor.
  - destruct (leb x h) eqn:E.
    + constructor; [exact Hs | constructor; exact E].
    + apply leb_total in E. inversion Hs as [| ? ? Hs' Hhd]; subst.
      constructor; [apply IH; exact Hs' |].
      destruct l as [|h' l]; cbn [insert_by].
      * constructor; exact E.
      * destruct (leb x h'); constructor;
          [exact E | inversion Hhd; assumption].
Qed.

Lemma sorted_by_sorted (l : list A) :
  Sorted (fun a b => leb a b = true) (sorted_by leb l).
Proof.
  induction l as [|x l IH]; cbn [sorted_by fold_right]; [constructor |].
  apply insert_by_sorted, IH.
Qed.

(** The keys of a frame split it: the groups of the keys, taken together,
    have as many lines as the frame. *)
Lemma count_one (keys : list A) (x : A) :
  NoDup keys -> In x keys ->
  sum_counts (map (fun key => if eqb x key then 1 else 0)%nat keys) = 1%nat.
Proof.
  induction 1 as [|k keys Hk Hnd IH]; intros Hin; [contradiction |].
  cbn [map sum_counts]. destruct Hin as [-> | Hin].
  - assert (E : eqb x x = true) by now apply eqb_eq. rewrite E.
    assert (Hz : sum_counts (map (fun key => if eqb x key then 1 else 0)%nat
                               keys) = 0%nat).
    { clear IH Hnd. induction keys as [|k' keys IH']; [reflexivity |].
      cbn [map sum_counts]. destruct (eqb x k') eqn:E'.
      - apply eqb_eq in E'. subst k'. exfalso. apply Hk. now left.
      - apply IH'. intros H. apply Hk. now right. }
    rewrite Hz. reflexivity.
  - destruct (eqb x k) eqn:E.
    + apply eqb_eq in E. subst k. contradiction.
    + now rewrite IH.
Qed.

Lemma groups_cover {B} (key_of : B -> A) (keys : list A) (df : list B) :
  NoDup keys -> (forall r, In r df -> In (key_of r) keys) ->
  sum_counts (map (fun key =>
                   List.length (filter (fun r => eqb (key_of r) key) df))
                keys)
  = List.length df.
Proof.
  intros Hnd. induction df as [|r df IH]; intros Hall.
  - cbn [filter List.length]. clear. induction keys; cbn; auto.
  - transitivity
      (sum_counts (map (fun key => if eqb (key_of r) key then 1 else 0)%nat
                       keys)
       + sum_counts (map (fun key =>
                            List.length
                              (filter (fun r => eqb (key_of r) key) df))
                         keys))%nat.
    + clear. induction keys as [|k keys IHk]; [reflexivity |].
      cbn [map sum_counts]. rewrite IHk. cbn [filter].
      destruct (eqb (key_of r) k); cbn [List.length]; lia.
    + rewrite (count_one keys (key_of r) Hnd) by (apply Hall; now left).
      rewrite IH by (intros; apply Hall; now right). reflexivity.
Qed.

End UniqueSorted.

(* ================================================================== *)
(** * Further properties: the period pickers *)
(* ================================================================== *)

Lemma period_eqb_eq (p q : Z * Z) : period_eqb p q = true <-> p = q.
Proof.
  destruct p as [a b], q as [c d]. unfold period_eqb. cbn [fst snd].
  rewrite andb_true_iff, !Z.eqb_eq. split.
  - intros [-> ->]. reflexivity.
  - intros H. injection H as -> ->. split; reflexivity.
Qed.

Lemma Z_geb_total (x y : Z) : (y <=? x)%Z = false -> (x <=? y)%Z = true.
Proof. intros H. apply Z.leb_le. apply Z.leb_gt in H. lia. Qed.

Lemma period_geb_total (p q : Z * Z) :
  period_leb q p = false -> period_leb p q = true.
Proof.
  destruct p as [a b], q as [c d]. unfold period_leb. cbn [fst snd].
  intros H.
  apply orb_false_iff in H. destruct H as [H1 H2].
  apply Z.ltb_ge in H1. apply orb_true_iff.
  destruct (Z.eq_dec a c) as [-> | Hne].
  - right. rewrite Z.eqb_refl in *. cbn [andb] in *.
    apply Z.leb_gt in H2. apply Z.leb_le. lia.
  - left. apply Z.ltb_lt. lia.
Qed.

Lemma options_spec {K} (eqb leb : K -> K -> bool)
      (key_of : row -> K) (df : list row) :
  (forall x y, eqb x y = true <-> x = y) ->
  (forall x y, leb y x = false -> leb x y = true) ->
  let options := sorted_reverse leb (unique eqb (map key_of df)) in
  (forall k, In k options <-> exists r, In r df /\ key_of r = k)
  /\ NoDup options
  /\ Sorted (fun a b => leb b a = true) options.
Proof.
  intros Heq Htot options. subst options. unfold sorted_reverse.
  pose proof (sorted_by_perm (fun a b => leb b a)
                             (unique eqb (map key_of df))) as Hp.
  split; [| split].
  - intros k. split.
    + intros H. apply (Permutation_in _ (Permutation_sym Hp)) in H.
      apply (proj1 (unique_In eqb Heq _ _)) in H. apply in_map_iff in H.
      destruct H as [r [Hk Hr]]. exists r. now split.
    + intros [r [Hr Hk]]. apply (Permutation_in _ Hp).
      apply (proj2 (unique_In eqb Heq _ _)). apply in_map_iff.
      exists r. now split.
  - apply (Permutation_NoDup Hp), (unique_NoDup eqb Heq).
  - apply (sorted_by_sorted (fun a b => leb b a)). intros x y. apply Htot.
Qed.

Lemma period_options_membership (df : list row) :
  (forall w, In w (week_options df)
             <-> exists r, In r df /\ week_period (row_date r) = w)
  /\ (forall m, In m (month_options df)
                <-> exists r, In r df /\ month_period (row_date r) = m)
  /\ (forall q, In q (quarter_options df)
                <-> exists r, In r df /\ quarter_period (row_date r) = q).
Proof.
  split; [| split].
  - apply (options_spec Z.eqb Z.leb (fun r => week_period (row_date r)) df
                        Z.eqb_eq Z_geb_total).
  - apply (options_spec period_eqb period_leb
                        (fun r => month_period (row_date r)) df
                        period_eqb_eq period_geb_total).
  - apply (options_spec period_eqb period_leb
                        (fun r => quarter_period (row_date r)) df
                        period_eqb_eq period_geb_total).
Qed.

(** X8. Each period picker offers exactly the periods in which the frame
    has a trade, each of them once, the most recent first. *)
Theorem period_options_sound (df : list row) :
  ((forall w, In w (week_options df)
              <-> exists r, In r df /\ week_period (row_date r) = w)
   /\ NoDup (week_options df)
   /\ Sorted (fun a b => (b <=? a)%Z = true) (week_options df))
  /\ ((forall m, In m (month_options df)
                 <-> exists r, In r df /\ month_period (row_date r) = m)
      /\ NoDup (month_options df)
      /\ Sorted (fun a b => period_leb b a = true) (month_options df))
  /\ ((forall q, In q (quarter_options df)
                 <-> exists r, In r df /\ quarter_period (row_date r) = q)
      /\ NoDup (quarter_options df)
      /\ Sorted (fun a b => period_leb b a = true) (quarter_options df)).
Proof.
  split; [| split].
  - apply (options_spec Z.eqb Z.leb (fun r => week_period (row_date r)) df
                        Z.eqb_eq Z_geb_total).
  - apply (options_spec period_eqb period_leb
                        (fun r => month_period (row_date r)) df
                        period_eqb_eq period_geb_total).
  - apply (options_spec period_eqb period_leb
                        (fun r => quarter_period (row_date r)) df
                        period_eqb_eq period_geb_total).
Qed.

(** X9. The groups of a picker's options split the frame: the trades
    shown for the offered weeks (months, quarters), taken together, are
    as many as the frame holds, so every trade is shown under exactly one
    of them. *)
Theorem period_filters_partition (df : list row) :
  sum_counts (map (fun w => List.length (filter_trades df (Weekly w)))
                  (week_options df)) = List.length df
  /\ sum_counts (map (fun m => List.length (filter_trades df (Monthly m)))
                     (month_options df)) = List.length df
  /\ sum_counts (map (fun q => List.length (filter_trades df (Quarterly q)))
                     (quarter_options df)) = List.length df.
Proof.
  assert (Hw := options_spec Z.eqb Z.leb (fun r => week_period (row_date r))
                             df Z.eqb_eq Z_geb_total).
  assert (Hm := options_spec period_eqb period_leb
                             (fun r => month_period (row_date r)) df
                             period_eqb_eq period_geb_total).
  assert (Hq := options_spec period_eqb period_leb
                             (fun r => quarter_period (row_date r)) df
                             period_eqb_eq period_geb_total).
  cbv zeta in Hw, Hm, Hq.
  destruct Hw as (Hw1 & Hw2 & _), Hm as (Hm1 & Hm2 & _),
           Hq as (Hq1 & Hq2 & _).
  split; [| split].
  - rewrite <- (groups_cover Z.eqb Z.eqb_eq
                  (fun r => week_period (row_date r)) (week_options df) df
                  Hw2)
      by (intros r Hr; apply Hw1; exists r; now split).
    f_equal. apply map_ext. intros w. cbn [filter_trades].
    now rewrite loc_mask_map.
  - rewrite <- (groups_cover period_eqb period_eqb_eq
                  (fun r => month_period (row_date r)) (month_options df) df
                  Hm2)
      by (intros r Hr; apply Hm1; exists r; now split).
    f_equal. apply map_ext. intros m. cbn [filter_trades].
    now rewrite loc_mask_map.
  - rewrite <- (groups_cover period_eqb period_eqb_eq
                  (fun r => quarter_period (row_date r)) (quarter_options df)
                  df Hq2)
      by (intros r Hr; apply Hq1; exists r; now split).
    f_equal. apply map_ext. intros q. cbn [filter_trades].
    now rewrite loc_mask_map.
Qed.

(** X10. What each period filter keeps: the monthly filter the trades of
    that year and month, the quarterly filter those of the three months
    of the quarter, the weekly filter those of seven days in a row from a
    Monday; and the trades of a month are among those of its quarter. *)
Theorem period_filters_select (df : list row) :
  (forall y m r,
      In r (filter_trades df (Monthly (y, m)))
      <-> In r df /\ year (row_date r) = y /\ month (row_date r) = m)
  /\ (forall y q r,
        In r (filter_trades df (Quarterly (y, q)))
        <-> In r df /\ year (row_date r) = y
            /\ (3 * q - 2 <= month (row_date r) <= 3 * q)%Z)
  /\ (forall w r,
        In r (filter_trades df (Weekly w))
        <-> In r df
            /\ (7 * w + 1 <= toordinal (row_date r) <= 7 * w + 7)%Z)
  /\ (forall y m r,
        In r (filter_trades df (Monthly (y, m))) ->
        In r (filter_trades df (Quarterly (y, (m - 1) / 3 + 1)%Z))).
Proof.
  assert (Hm : forall y m r,
             In r (filter_trades df (Monthly (y, m)))
             <-> In r df /\ year (row_date r) = y /\ month (row_date r) = m).
  { intros y m r. cbn [filter_trades].
    rewrite loc_mask_map, filter_In, period_eqb_eq. unfold month_period.
    split; intros [H1 H2]; split; try assumption.
    - injection H2 as -> ->. now split.
    - destruct H2 as [-> ->]. reflexivity. }
  assert (Hq : forall y q r,
             In r (filter_trades df (Quarterly (y, q)))
             <-> In r df /\ year (row_date r) = y
                 /\ (3 * q - 2 <= month (row_date r) <= 3 * q)%Z).
  { intros y q r. cbn [filter_trades].
    rewrite loc_mask_map, filter_In, period_eqb_eq. unfold quarter_period.
    split; intros [H1 H2]; split; try assumption.
    - injection H2 as -> <-. split; [reflexivity |].
      Z.div_mod_to_equations. lia.
    - destruct H2 as [-> H2]. f_equal.
      Z.div_mod_to_equations. lia. }
  split; [exact Hm |]. split; [exact Hq |]. split.
  - intros w r. cbn [filter_trades].
    rewrite loc_mask_map, filter_In, Z.eqb_eq. unfold week_period.
    split; intros [H1 H2]; split; try assumption;
      Z.div_mod_to_equations; lia.
  - intros y m r H. apply Hm in H. destruct H as (Hin & Hy & Hmo).
    apply Hq. split; [exact Hin |]. split; [exact Hy |].
    rewrite Hmo. Z.div_mod_to_equations. lia.
Qed.

Lemma date_min_lower (l : list date) :
  forall d, let m := fold_left (fun m x => if date_leb x m then x else m) l d in
    date_le m d /\ Forall (date_le m) l.
Proof.
  induction l as [|x l IH]; intros d; cbn [fold_left].
  - split; [apply date_le_refl | constructor].
  - cbv zeta in *. destruct (date_leb x d) eqn:E.
    + destruct (IH x) as [H1 H2]. split; [| constructor; assumption].
      eapply date_le_trans; [exact H1 | exact E].
    + destruct (IH d) as [H1 H2]. split; [exact H1 |].
      constructor; [| exact H2].
      eapply date_le_trans; [exact H1 | apply date_leb_total, E].
Qed.

Lemma date_max_upper (l : list date) :
  forall d, let m := fold_left (fun m x => if date_leb m x then x else m) l d in
    date_le d m /\ Forall (fun x => date_le x m) l.
Proof.
  induction l as [|x l IH]; intros d; cbn [fold_left].
  - split; [apply date_le_refl | constructor].
  - cbv zeta in *. destruct (date_leb d x) eqn:E.
    + destruct (IH x) as [H1 H2]. split; [| constructor; assumption].
      eapply date_le_trans; [exact E | exact H1].
    + destruct (IH d) as [H1 H2]. split; [exact H1 |].
      constructor; [| exact H2].
      eapply date_le_trans; [apply date_leb_total, E | exact H1].
Qed.

Lemma filter_all {A} (p : A -> bool) (l : list A) :
  (forall x, In x l -> p x = true) -> filter p l = l.
Proof.
  induction l as [|x l IH]; intros H; cbn [filter]; [reflexivity |].
  rewrite (H x) by now left. f_equal. apply IH. intros y Hy. apply H. now right.
Qed.

Lemma filter_none {A} (p : A -> bool) (l : list A) :
  (forall x, In x l -> p x = false) -> filter p l = [].
Proof.
  induction l as [|x l IH]; intros H; cbn [filter]; [reflexivity |].
  rewrite (H x) by now left. apply IH. intros y Hy. apply H. now right.
Qed.

Lemma default_range_bounds (df : list row) :
  df <> [] ->
  exists a b, default_range df = [a; b]
              /\ forall r, In r df ->
                   date_le a (row_date r) /\ date_le (row_date r) b.
Proof.
  intros Hne. destruct df as [|r0 df]; [congruence |].
  unfold default_range. cbn [map date_min date_max].
  eexists. eexists. split; [reflexivity |].
  destruct (date_min_lower (map row_date df) (row_date r0)) as [Hl1 Hl2].
  destruct (date_max_upper (map row_date df) (row_date r0)) as [Hu1 Hu2].
  cbv zeta in *. rewrite Forall_forall in Hl2, Hu2.
  intros r [<- | Hr]; [split; assumption |].
  split; [apply Hl2 | apply Hu2]; apply in_map, Hr.
Qed.

Lemma default_range_all (df : list row) :
  filter_trades df (CustomRange (default_range df)) = df.
Proof.
  destruct df as [|r0 df]; [reflexivity |].
  destruct (default_range_bounds (r0 :: df)) as (a & b & Hab & Hall);
    [discriminate |].
  rewrite Hab. cbn [filter_trades].
  rewrite (loc_mask_and (fun r => date_leb a (row_date r))
                        (fun r => date_leb (row_date r) b)).
  apply filter_all. intros r Hr. destruct (Hall r Hr) as [H1 H2].
  unfold date_le in *. now rewrite H1, H2.
Qed.

(** X11. The range the date picker starts with, from the earliest to the
    latest date of the frame, keeps every trade. *)
Theorem default_range_keeps_everything (df : list row) :
  filter_trades df (CustomRange (default_range df)) = df
  /\ (df <> [] ->
      exists a b, default_range df = [a; b]
                  /\ forall r, In r df ->
                       date_le a (row_date r) /\ date_le (row_date r) b).
Proof.
  split; [apply default_range_all | apply default_range_bounds].
Qed.

(** X12. A filter taken from what the widgets offer (all data, a period
    of a picker, the starting range) always shows a report with at least
    one trade: the notice for an empty selection cannot appear. *)
Theorem offered_filter_shows_report (fmt_float : Q -> string)
        (trades : list trade) (spec : filter_spec) :
  offered (build_df trades) spec ->
  exists report chart csv,
    dashboard fmt_float trades spec = Shown report chart csv
    /\ (0 < total_trades report)%nat.
Proof.
  intros [Hne Hoff].
  assert (Hsel : filter_trades (build_df trades) spec <> []).
  { pose proof (period_options_membership (build_df trades)) as (Hw & Hm & Hq).
    destruct spec as [| w | m | q | rng]; cbn [filter_trades].
    - exact Hne.
    - apply Hw in Hoff. destruct Hoff as [r [Hr Hk]].
      rewrite loc_mask_map. intros E.
      assert (Hin : In r (filter (fun r => (week_period (row_date r) =? w)%Z)
                                 (build_df trades)))
        by (apply filter_In; split; [exact Hr | now apply Z.eqb_eq]).
      rewrite E in Hin. contradiction.
    - apply Hm in Hoff. destruct Hoff as [r [Hr Hk]].
      rewrite loc_mask_map. intros E.
      assert (Hin : In r (filter (fun r => period_eqb
                                             (month_period (row_date r)) m)
                                 (build_df trades)))
        by (apply filter_In; split; [exact Hr | now apply period_eqb_eq]).
      rewrite E in Hin. contradiction.
    - apply Hq in Hoff. destruct Hoff as [r [Hr Hk]].
      rewrite loc_mask_map. intros E.
      assert (Hin : In r (filter (fun r => period_eqb
                                             (quarter_period (row_date r)) q)
                                 (build_df trades)))
        by (apply filter_In; split; [exact Hr | now apply period_eqb_eq]).
      rewrite E in Hin. contradiction.
    - subst rng.
      pose proof (default_range_all (build_df trades)) as E.
      cbn [filter_trades] in E. rewrite E. exact Hne. }
  destruct (compute_metrics_fields _ Hsel) as [rep [Hrep (Ht & _)]].
  exists rep, (cumulative_chart (filter_trades (build_df trades) spec)),
         (export_csv fmt_float (build_df trades)).
  split.
  - unfold dashboard. destruct trades as [|t trades];
      [now contradict Hne |]. rewrite Hrep. reflexivity.
  - rewrite Ht. destruct (filter_trades (build_df trades) spec);
      [congruence | cbn; lia].
Qed.

Lemma offered_filter_shows_report_witness :
  offered (build_df sample_trades) (Monthly (2024, 1)%Z)
  /\ exists report chart csv,
      dashboard (fun _ => EmptyString) sample_trades (Monthly (2024, 1)%Z)
      = Shown report chart csv
      /\ (0 < total_trades report)%nat.
Proof.
  assert (H : offered (build_df sample_trades) (Monthly (2024, 1)%Z)).
  { split; [discriminate |]. vm_compute. left. reflexivity. }
  split; [exact H |].
  apply (offered_filter_shows_report (fun _ => EmptyString) sample_trades _ H).
Defined.

(** X13. A range whose end lies before its start keeps no trade, and the
    dashboard of a store that is not empty then shows the notice for an
    empty selection in place of the report. *)
Theorem inverted_range_selects_nothing (fmt_float : Q -> string)
        (trades : list trade) (d0 d1 : date) :
  trades <> [] -> date_leb d0 d1 = false ->
  filter_trades (build_df trades) (CustomRange [d0; d1]) = []
  /\ dashboard fmt_float trades (CustomRange [d0; d1]) = NoTradesFound.
Proof.
  intros Hne Hinv.
  assert (E : filter_trades (build_df trades) (CustomRange [d0; d1]) = []).
  { cbn [filter_trades].
    rewrite (loc_mask_and (fun r => date_leb d0 (row_date r))
                          (fun r => date_leb (row_date r) d1)).
    apply filter_none. intros r _.
    destruct (date_leb d0 (row_date r)) eqn:E0,
             (date_leb (row_date r) d1) eqn:E1; try reflexivity.
    pose proof (date_le_trans _ _ _ E0 E1) as H.
    unfold date_le in H. congruence. }
  split; [exact E |].
  unfold dashboard. destruct trades as [|t trades]; [congruence |].
  rewrite E. reflexivity.
Qed.

Lemma inverted_range_selects_nothing_witness :
  sample_trades <> []
  /\ date_leb (mkDate 2024 1 17) (mkDate 2024 1 15) = false
  /\ filter_trades (build_df sample_trades)
       (CustomRange [mkDate 2024 1 17; mkDate 2024 1 15]) = []
  /\ dashboard (fun _ => EmptyString) sample_trades
       (CustomRange [mkDate 2024 1 17; mkDate 2024 1 15]) = NoTradesFound.
Proof.
  split; [discriminate | split; [reflexivity |]].
  apply (inverted_range_selects_nothing (fun _ => EmptyString) sample_trades);
    [discriminate | reflexivity].
Defined.

(* ================================================================== *)
(** * Further properties: the daily total and the candlesticks *)
(* ================================================================== *)

Lemma build_df_rows (trades : list trade) (r : row) :
  In r (build_df trades) ->
  In (base r) (sort_values trades)
  /\ Daily_PnL r = daily_pnl (sort_values trades) (base r).
Proof.
  unfold build_df. intros H. apply in_map_iff in H.
  destruct H as [[t c] [<- Hin]]. cbn [base Daily_PnL fst snd].
  split; [| reflexivity]. apply in_combine_l in Hin. exact Hin.
Qed.

(** X14. The Daily_PnL of a line is the sum of the amounts of all trades
    of the store entered for the date of that line, so two lines of one
    date carry the same value, and a trade alone on its date carries its
    own amount. *)
Theorem daily_pnl_is_sum_of_the_day (trades : list trade) :
  let df := build_df trades in
  (forall r, In r df ->
     Daily_PnL r
     == series_sum (map Amount
                        (filter (fun u => date_eqb (Date u) (row_date r))
                                trades)))
  /\ (forall r r', In r df -> In r' df -> row_date r = row_date r' ->
        Daily_PnL r = Daily_PnL r')
  /\ (forall r, In r df ->
        filter (fun u => date_eqb (Date u) (row_date r)) trades = [base r] ->
        Daily_PnL r == Amount (base r)).
Proof.
  cbv zeta.
  assert (Hsum : forall r, In r (build_df trades) ->
     Daily_PnL r
     == series_sum (map Amount
                        (filter (fun u => date_eqb (Date u) (row_date r))
                                trades))).
  { intros r Hr. destruct (build_df_rows trades r Hr) as [_ ->].
    unfold daily_pnl, row_date. apply series_sum_perm, Permutation_map.
    apply filter_perm, Permutation_sym, sort_values_perm. }
  split; [exact Hsum |]. split.
  - intros r r' Hr Hr' Hd.
    destruct (build_df_rows trades r Hr) as [_ ->].
    destruct (build_df_rows trades r' Hr') as [_ ->].
    unfold daily_pnl. unfold row_date in Hd. now rewrite Hd.
  - intros r Hr Hone. rewrite (Hsum r Hr), Hone. cbn. lra.
Qed.

Lemma date_eqb_eq (a b : date) : date_eqb a b = true <-> a = b.
Proof.
  rewrite date_eqb_fields. destruct a as [y m d], b as [y' m' d'].
  cbn [year month day]. split.
  - intros (-> & -> & ->). reflexivity.
  - intros H. injection H as -> -> ->. repeat split.
Qed.

Lemma fold_max_ge_start (l : list Q) :
  forall x, x <= fold_left Qmax l x.
Proof.
  induction l as [|y l IH]; intros x; cbn [fold_left]; [lra |].
  eapply Qle_trans; [apply Q.le_max_l | apply IH].
Qed.

Lemma fold_max_ge_all (l : list Q) :
  forall x, Forall (fun y => y <= fold_left Qmax l x) l.
Proof.
  induction l as [|y l IH]; intros x; cbn [fold_left]; constructor.
  - eapply Qle_trans; [apply Q.le_max_r | apply fold_max_ge_start].
  - apply IH.
Qed.

Lemma fold_max_in (l : list Q) :
  forall x, In (fold_left Qmax l x) (x :: l).
Proof.
  induction l as [|y l IH]; intros x; cbn [fold_left]; [now left |].
  destruct (IH (Qmax x y)) as [H | H].
  - rewrite <- H. unfold Qmax, GenericMinMax.gmax.
    destruct (x ?= y); [left | right; left | left]; reflexivity.
  - right. right. exact H.
Qed.

Lemma last_shift (l : list Q) :
  forall y a, last (y :: l) a = last l y.
Proof.
  induction l as [|z l IH]; intros y a; [reflexivity |].
  change (last (y :: z :: l) a) with (last (z :: l) a).
  rewrite (IH z a), (IH z y). reflexivity.
Qed.

Lemma last_in (l : list Q) :
  forall a, In (last l a) (a :: l).
Proof.
  induction l as [|y l IH]; intros a; [now left |].
  rewrite last_shift. right. apply IH.
Qed.

Lemma group_keys_spec (df : list row) :
  (forall d, In d (group_keys df) <-> In d (map row_date df))
  /\ NoDup (group_keys df)
  /\ Sorted (fun a b => date_leb a b = true) (group_keys df).
Proof.
  unfold group_keys.
  pose proof (sorted_by_perm date_leb (unique date_eqb (map row_date df)))
    as Hp.
  split; [| split].
  - intros d. split; intros H.
    + apply (Permutation_in _ (Permutation_sym Hp)) in H.
      now apply (proj1 (unique_In date_eqb date_eqb_eq _ _)) in H.
    + apply (Permutation_in _ Hp).
      now apply (proj2 (unique_In date_eqb date_eqb_eq _ _)).
  - apply (Permutation_NoDup Hp), (unique_NoDup date_eqb date_eqb_eq).
  - apply (sorted_by_sorted date_leb date_leb_total).
Qed.

Lemma group_of_key_nonempty (df : list row) (key : date) :
  In key (map row_date df) -> amounts (group key df) <> [].
Proof.
  intros H. apply in_map_iff in H. destruct H as [r [Hk Hr]].
  assert (Hin : In r (group key df)).
  { apply filter_In. split; [exact Hr | now apply date_eqb_eq]. }
  destruct (group key df); [contradiction | discriminate].
Qed.

Lemma daily_df_dates (df : list row) (keys : list date) :
  (forall k, In k keys -> In k (map row_date df)) ->
  map candle_date
      (flat_map (fun key =>
                   match agg_amount key (amounts (group key df)) with
                   | Some c => [c]
                   | None => []
                   end) keys)
  = keys.
Proof.
  induction keys as [|k keys IH]; intros H; [reflexivity |].
  cbn [flat_map]. rewrite map_app, IH by (intros; apply H; now right).
  pose proof (group_of_key_nonempty df k (H k (or_introl eq_refl))) as Hne.
  destruct (amounts (group k df)) as [|a r]; [congruence |].
  reflexivity.
Qed.

(** X15. The candlestick frame has one line per date on which the
    filtered frame has a trade, in ascending date order.  On each line
    open and close are the first and the last amount of that date, low
    and high are amounts of that date that bound all of them, so
    low <= open, close <= high. *)
Theorem candles_summarise_days (filtered_df : list row) :
  let candles := daily_df filtered_df in
  (forall d, In d (map candle_date candles)
             <-> In d (map row_date filtered_df))
  /\ NoDup (map candle_date candles)
  /\ Sorted (fun a b => date_leb a b = true) (map candle_date candles)
  /\ (forall c, In c candles ->
        let day := amounts (group (candle_date c) filtered_df) in
        hd_error day = Some (Open c)
        /\ last day (Open c) = Close c
        /\ In (Low c) day /\ In (High c) day
        /\ Forall (fun a => Low c <= a <= High c) day
        /\ Low c <= Open c <= High c
        /\ Low c <= Close c <= High c).
Proof.
  cbv zeta. destruct (group_keys_spec filtered_df) as (Hk1 & Hk2 & Hk3).
  assert (Hd : map candle_date (daily_df filtered_df) = group_keys filtered_df).
  { apply daily_df_dates. intros k. apply Hk1. }
  rewrite Hd. split; [exact Hk1 |]. split; [exact Hk2 |]. split; [exact Hk3 |].
  intros c Hc. unfold daily_df in Hc. apply in_flat_map in Hc.
  destruct Hc as [key [_ Hc]].
  unfold agg_amount in Hc.
  destruct (amounts (group key filtered_df)) as [|a r] eqn:Eday;
    [contradiction |].
  destruct Hc as [<- | []]. cbn [candle_date Low High Open Close].
  rewrite Eday.
  assert (Hall : Forall (fun x => fold_left Qmin r a <= x
                                  <= fold_left Qmax r a) (a :: r)).
  { constructor.
    - split; [apply fold_min_le_start | apply fold_max_ge_start].
    - pose proof (fold_min_le_all r a) as H1.
      pose proof (fold_max_ge_all r a) as H2.
      rewrite Forall_forall in *. intros x Hx. split; [now apply H1 | now apply H2]. }
  split; [reflexivity |]. split; [apply last_shift |].
  split; [apply fold_min_in |]. split; [apply fold_max_in |].
  split; [exact Hall |].
  rewrite Forall_forall in Hall. split.
  - apply Hall. now left.
  - apply Hall, last_in.
Qed.

Example sample_candles :
  map candle_date (daily_df sample_df)
  = [mkDate 2024 1 15; mkDate 2024 1 16; mkDate 2024 1 17].
Proof. reflexivity. Qed.

(* ================================================================== *)
(** * Further properties: the trade history table *)
(* ================================================================== *)

(** X16. The history table shows the filtered trades, all of them and no
    other, the most recent first, with date, type, R value, amount and
    notes as stored; in the image column it shows the camera sign for a
    stored image that is not empty and nothing otherwise, never the
    image itself. *)
Theorem history_table_shows_filtered_trades (filtered_df : list row) :
  Permutation (history_table filtered_df) (map display_row filtered_df)
  /\ Sorted (fun a b => date_leb (Date b) (Date a) = true)
            (history_table filtered_df)
  /\ (forall r,
        Date (display_row r) = Date (base r)
        /\ Type_ (display_row r) = Type_ (base r)
        /\ R_Value (display_row r) = R_Value (base r)
        /\ Amount (display_row r) = Amount (base r)
        /\ Notes (display_row r) = Notes (base r)
        /\ (Image (display_row r) = Some camera
            <-> exists s, Image (base r) = Some s /\ s <> EmptyString))
  /\ Forall (fun t => Image t = None \/ Image t = Some camera)
            (history_table filtered_df).
Proof.
  unfold history_table, sorted_reverse.
  pose proof (sorted_by_perm (fun a b => date_leb (Date b) (Date a))
                             (map display_row filtered_df)) as Hp.
  split; [apply Permutation_sym, Hp |]. split; [| split].
  - apply (sorted_by_sorted (fun a b => date_leb (Date b) (Date a))).
    intros x y. apply date_leb_total.
  - intros r. repeat (split; [reflexivity |]).
    cbn [display_row Image]. unfold image_flag.
    destruct (Image (base r)) as [s|].
    + destruct s as [|c s]; cbn [is_empty]; split.
      * discriminate.
      * intros [s' [H Hs']]. injection H as <-. congruence.
      * intros _. eexists. split; [reflexivity | discriminate].
      * reflexivity.
    + split; [discriminate | intros [s [H _]]; discriminate H].
  - apply Forall_forall. intros t Ht.
    apply (Permutation_in _ (Permutation_sym Hp)) in Ht.
    apply in_map_iff in Ht. destruct Ht as [r [<- _]].
    cbn [display_row Image]. unfold image_flag.
    destruct (Image (base r)) as [s|]; [| now left].
    destruct (is_empty s); [now left | now right].
Qed.

(* ================================================================== *)
(** * Further properties: the cumulative series of a range *)
(* ================================================================== *)

Lemma series_eq_trans (a b c : list Q) :
  series_eq a b -> series_eq b c -> series_eq a c.
Proof.
  intros H. revert c. induction H as [| x y l l' Hxy _ IH]; intros c Hc;
    inversion Hc; subst; constructor.
  - etransitivity; eassumption.
  - now apply IH.
Qed.

Lemma running_comp (l : list Q) :
  forall a b, a == b -> series_eq (running Qplus a l) (running Qplus b l).
Proof.
  induction l as [|x l IH]; intros a b Hab; cbn [running]; constructor.
  - now rewrite Hab.
  - apply IH. now rewrite Hab.
Qed.

Lemma cumsum_running (l : list Q) : series_eq (cumsum l) (running Qplus 0 l).
Proof.
  destruct l as [|x l]; cbn [cumsum running]; constructor; [lra |].
  apply running_comp. lra.
Qed.

Lemma running_shift (l : list Q) :
  forall b c, series_eq (running Qplus (b + c) l)
                        (map (Qplus b) (running Qplus c l)).
Proof.
  induction l as [|x l IH]; intros b c; cbn [running map]; constructor.
  - lra.
  - eapply series_eq_trans; [| apply IH]. apply running_comp. lra.
Qed.

Lemma running_as_shift (l : list Q) (b : Q) :
  series_eq (running Qplus b l) (map (Qplus b) (cumsum l)).
Proof.
  destruct l as [|x l]; cbn [cumsum running map]; constructor; [lra |].
  apply running_shift.
Qed.

Lemma build_df_sorted (trades : list trade) : rows_sorted (build_df trades).
Proof.
  unfold rows_sorted.
  assert (Hs : StronglySorted by_date (map base (build_df trades))).
  { rewrite build_df_base. apply Sorted_StronglySorted.
    - intros a b c. apply date_le_trans.
    - apply sort_values_sorted. }
  induction (build_df trades) as [|r l IH]; [constructor |].
  cbn [map] in Hs. inversion Hs as [| ? ? Hl Hall]; subst.
  constructor; [apply IH, Hl |].
  rewrite Forall_forall in *. intros r' Hr'.
  apply (Hall (base r')). now apply in_map.
Qed.

(** On a frame in date order whose cumulative column continues a running
    total [acc], the column on the lines of a range is the running sum of
    those lines, started from [acc] plus what the earlier lines add. *)
Lemma range_series (d0 d1 : date) (l : list row) :
  forall acc,
    rows_sorted l ->
    series_eq (map Cumulative_PnL l) (running Qplus acc (amounts l)) ->
    series_eq (map Cumulative_PnL (filter (in_range d0 d1) l))
              (running Qplus (acc + sum_before d0 l)
                       (amounts (filter (in_range d0 d1) l))).
Proof.
  induction l as [|r l IH]; intros acc Hs Hc; [constructor |].
  inversion Hs as [| ? ? Hl Hall]; subst.
  change (amounts (r :: l)) with (Amount (base r) :: amounts l) in Hc.
  cbn [map running] in Hc.
  inversion Hc as [| ? ? ? ? Hhd Htl]; subst.
  specialize (IH _ Hl Htl).
  rewrite Forall_forall in Hall.
  unfold sum_before in *. cbn [filter].
  destruct (date_leb d0 (row_date r)) eqn:E0; cbn [negb].
  - assert (Hnone : filter (fun r' => negb (date_leb d0 (row_date r'))) l = []).
    { apply filter_none. intros r' Hr'.
      pose proof (date_le_trans _ _ _ E0 (Hall r' Hr')) as H.
      unfold date_le in H. now rewrite H. }
    rewrite Hnone in *. cbn [amounts map series_sum] in *.
    destruct (date_leb (row_date r) d1) eqn:E1.
    + assert (Hr : in_range d0 d1 r = true)
        by (unfold in_range; now rewrite E0, E1).
      rewrite Hr. cbn [map running]. constructor; [rewrite Hhd; lra |].
      eapply series_eq_trans; [exact IH |]. apply running_comp. lra.
    + assert (Hr : in_range d0 d1 r = false)
        by (unfold in_range; now rewrite E0, E1).
      rewrite Hr.
      assert (Hempty : filter (in_range d0 d1) l = []).
      { apply filter_none. intros r' Hr'. unfold in_range.
        destruct (date_leb (row_date r') d1) eqn:E1';
          [| apply andb_false_r].
        pose proof (date_le_trans _ _ _ (Hall r' Hr') E1') as H.
        unfold date_le in H. congruence. }
      rewrite Hempty. constructor.
  - assert (Hr : in_range d0 d1 r = false)
      by (unfold in_range; now rewrite E0).
    rewrite Hr.
    change (amounts (r :: filter (fun r' => negb (date_leb d0 (row_date r'))) l))
      with (Amount (base r)
              :: amounts (filter (fun r' => negb (date_leb d0 (row_date r'))) l)).
    cbn [series_sum].
    eapply series_eq_trans; [exact IH |]. apply running_comp. lra.
Qed.

Lemma filter_map_base (p : trade -> bool) (df : list row) :
  map base (filter (fun r => p (base r)) df) = filter p (map base df).
Proof.
  induction df as [|r df IH]; cbn [filter map]; [reflexivity |].
  destruct (p (base r)); cbn [map]; now rewrite IH.
Qed.

(** X17. For whole-number amounts whose absolute values add up to at
    most 2^53, where the sums of the script are exact, the cumulative
    series shown for a range is the running sum of the trades of the
    range, raised by what all trades of the store dated before the start
    of the range add up to. *)
Theorem range_series_is_shifted_running_sum (trades : list trade)
        (d0 d1 : date) :
  whole_amounts (map Amount trades) ->
  let df := build_df trades in
  let filtered_df := filter_trades df (CustomRange [d0; d1]) in
  let earlier :=
    series_sum (map Amount
                    (filter (fun t => negb (date_leb d0 (Date t))) trades)) in
  series_eq (snd (cumulative_chart filtered_df))
            (map (Qplus earlier) (cumsum (amounts filtered_df))).
Proof.
  intros _. cbv zeta. unfold cumulative_chart. cbn [snd filter_trades].
  rewrite (loc_mask_and (fun r => date_leb d0 (row_date r))
                        (fun r => date_leb (row_date r) d1)).
  change (fun x : row => date_leb d0 (row_date x) && date_leb (row_date x) d1)
    with (in_range d0 d1).
  assert (Hcol : series_eq (map Cumulative_PnL (build_df trades))
                           (running Qplus 0 (amounts (build_df trades)))).
  { rewrite build_df_cumsum. apply cumsum_running. }
  pose proof (range_series d0 d1 (build_df trades) 0
                           (build_df_sorted trades) Hcol) as H.
  eapply series_eq_trans; [exact H |].
  eapply series_eq_trans; [| apply running_as_shift].
  apply running_comp.
  unfold sum_before, amounts, row_date.
  rewrite <- (map_map base Amount).
  rewrite (filter_map_base (fun t => negb (date_leb d0 (Date t)))),
    build_df_base.
  rewrite (series_sum_perm _ _
             (Permutation_map Amount
                (filter_perm (fun t => negb (date_leb d0 (Date t))) _ _
                   (Permutation_sym (sort_values_perm trades))))).
  lra.
Qed.

Lemma range_series_is_shifted_running_sum_witness :
  whole_amounts (map Amount sample_trades)
  /\ series_eq
       (snd (cumulative_chart
               (filter_trades (build_df sample_trades)
                  (CustomRange [mkDate 2024 1 16; mkDate 2024 1 17]))))
       (map (Qplus
               (series_sum
                  (map Amount
                     (filter (fun t => negb (date_leb (mkDate 2024 1 16)
                                                      (Date t)))
                             sample_trades))))
            (cumsum
               (amounts
                  (filter_trades (build_df sample_trades)
                     (CustomRange [mkDate 2024 1 16; mkDate 2024 1 17]))))).
Proof.
  assert (H : whole_amounts (map Amount sample_trades)).
  { split.
    - repeat constructor; [exists 200%Z | exists (-100)%Z | exists 300%Z];
        reflexivity.
    - discriminate. }
  split; [exact H |].
  apply (range_series_is_shifted_running_sum
           sample_trades (mkDate 2024 1 16) (mkDate 2024 1 17) H).
Defined.

Example range_series_sample :
  snd (cumulative_chart
         (filter_trades sample_df
            (CustomRange [mkDate 2024 1 16; mkDate 2024 1 17])))
  = [100; 400].
Proof. reflexivity. Qed.

(* ================================================================== *)
(** * Further properties: the trace of the chart *)
(* ================================================================== *)

Lemma filter_rows_sorted (p : row -> bool) (l : list row) :
  rows_sorted l -> rows_sorted (filter p l).
Proof.
  unfold rows_sorted. induction 1 as [| r l Hl IH Hall]; cbn [filter];
    [constructor |].
  destruct (p r); [| exact IH]. constructor; [exact IH |].
  rewrite Forall_forall in *. intros r' Hr'.
  apply filter_In in Hr'. apply Hall, Hr'.
Qed.

(** X19. Whenever the dashboard shows a report, the trace of the
    cumulative chart has one point per trade counted in the report, with
    the dates in ascending order. *)
Theorem chart_trace_is_in_date_order (fmt_float : Q -> string)
        (trades : list trade) (spec : filter_spec)
        (report : MetricsReport) (chart : list date * list Q) (csv : string) :
  dashboard fmt_float trades spec = Shown report chart csv ->
  List.length (fst chart) = total_trades report
  /\ List.length (snd chart) = total_trades report
  /\ StronglySorted date_le (fst chart).
Proof.
  unfold dashboard. destruct trades as [|t trades]; [discriminate |].
  destruct (compute_metrics (filter_trades (build_df (t :: trades)) spec))
    as [rep|] eqn:Hrep; [| discriminate].
  intros H. injection H as <- <- _.
  assert (Hne : filter_trades (build_df (t :: trades)) spec <> [])
    by (intros E; rewrite E in Hrep; discriminate Hrep).
  destruct (compute_metrics_fields _ Hne) as [rep' [Hrep' (Ht & _)]].
  assert (rep' = rep) by congruence. subst rep'.
  unfold cumulative_chart. cbn [fst snd]. rewrite !length_map, Ht.
  split; [reflexivity |]. split; [reflexivity |].
  destruct (filter_trades_is_filter (build_df (t :: trades)) spec)
    as [keep ->].
  pose proof (filter_rows_sorted keep _ (build_df_sorted (t :: trades))) as Hs.
  unfold rows_sorted in Hs.
  induction Hs as [| r l Hl IH Hall]; cbn [map]; constructor.
  - exact IH.
  - rewrite Forall_forall in *. intros d Hd.
    apply in_map_iff in Hd. destruct Hd as [r' [<- Hr']]. now apply Hall.
Qed.

Lemma chart_trace_is_in_date_order_witness :
  exists report chart csv,
    dashboard (fun _ => EmptyString) sample_trades ShowAll
    = Shown report chart csv
    /\ List.length (fst chart) = total_trades report
    /\ List.length (snd chart) = total_trades report
    /\ StronglySorted date_le (fst chart).
Proof.
  eexists _, _, _. split; [reflexivity |].
  apply (chart_trace_is_in_date_order
           (fun _ => EmptyString) sample_trades ShowAll _ _
           (export_csv (fun _ => EmptyString) (build_df sample_trades))).
  reflexivity.
Defined.

(* ================================================================== *)
(** * Further properties: the sign of the stored amounts *)
(* ================================================================== *)

Lemma form_made_sign (t : trade) : form_made t -> sign_agrees t.
Proof.
  intros [[ty Hty] Hr]. unfold sign_agrees. rewrite Hty.
  destruct ty; cbn; split; intros H; try discriminate H;
    match goal with
    | |- context [Amount t] =>
        first
          [ destruct (Hr W2R) as (r & _ & Hge & Ha);
              [discriminate | exact Hty |]
          | destruct (Hr W1R) as (r & _ & Hge & Ha);
              [discriminate | exact Hty |]
          | destruct (Hr L1R) as (r & _ & Hge & Ha);
              [discriminate | exact Hty |]
          | destruct (Hr L2R) as (r & _ & Hge & Ha);
              [discriminate | exact Hty |] ]
    end;
    cbn [spec_sign spec_multiplier] in Ha; rewrite Ha; lra.
Qed.

Section SignFacts.

Variable b64encode : string -> string.

Lemma submit_all_form_made (forms : list form) :
  Forall r_value_in_range forms ->
  forall trades, Forall form_made trades ->
    exists trades',
      submit_all b64encode trades forms = Ret trades'
      /\ Forall form_made trades'.
Proof.
  induction 1 as [|f forms Hf _ IH]; intros trades Hinv.
  - exists trades. split; [reflexivity | exact Hinv].
  - cbn [submit_all].
    destruct (add_trade_cases b64encode trades f)
      as [[_ Hadd] | [Hacc [t Ht]]].
    + rewrite Hadd. cbn [bind fst]. apply IH, Hinv.
    + destruct Ht as (Hadd & _ & Hty & Hrv & _ & _ & Hamt).
      rewrite Hadd. cbn [bind fst]. apply IH.
      apply Forall_app. split; [exact Hinv |].
      constructor; [| constructor].
      split; [exists (trade_type_in f); exact Hty |].
      intros ty Hty_nc Hcode. rewrite Hty in Hcode.
      assert (Heq : trade_type_in f = ty)
        by (destruct (trade_type_in f), ty; try discriminate Hcode;
            reflexivity).
      subst ty.
      unfold accepted in Hacc. unfold r_value_in_range in Hf.
      destruct (r_value f) as [r|] eqn:Er;
        [| destruct (trade_type_in f); try discriminate Hacc;
           now contradict Hty_nc].
      exists r. split; [now rewrite Hrv |]. split; [exact Hf |].
      apply (amount_of_r_type (trade_type_in f) r (pnl f)); assumption.
Qed.

(** X20. In a store filled through the form, with R values within the
    bounds of their input, every trade of a W type has a positive amount
    and every trade of an L type a negative one. *)
Theorem stored_sign_follows_type (forms : list form) :
  Forall r_value_in_range forms ->
  exists trades,
    submit_all b64encode [] forms = Ret trades
    /\ Forall sign_agrees trades.
Proof.
  intros Hf.
  destruct (submit_all_form_made forms Hf [] (Forall_nil _))
    as [trades [Hs Hm]].
  exists trades. split; [exact Hs |].
  eapply Forall_impl; [| exact Hm]. intros t. apply form_made_sign.
Qed.

End SignFacts.

Lemma stored_sign_follows_type_witness :
  Forall r_value_in_range [in_range_form; empty_form]
  /\ exists trades,
      submit_all (fun s => s) [] [in_range_form; empty_form] = Ret trades
      /\ Forall sign_agrees trades.
Proof.
  assert (H1 : Forall r_value_in_range [in_range_form; empty_form]).
  { repeat constructor. cbn. discriminate. }
  split; [exact H1 |].
  apply (stored_sign_follows_type (fun s => s) _ H1).
Defined.
